(** * e-libro-updater: the record parser, the mapper and the upsert loop

  A shallow embedding of [src/libs/Book.js] (the RDF record parser) and of
  the updater script (the DTO mapper and the per-directory upsert loop),
  with the properties of the catalogue synchronisation stated over it.

  JavaScript strings are sequences of code units; they are modelled by
  [string], whose characters are the code units below 256.  Numbers
  produced by [parseInt] are modelled as an integer or [NaN], which is
  exact for the integers up to [2^53] in magnitude. *)

From Stdlib Require Import List String Ascii ZArith Bool Arith Lia.
From Stdlib Require Import Permutation Sorted.
From Stdlib Require Import DecimalString DecimalNat.
Import ListNotations.

Local Open Scope list_scope.
Local Open Scope string_scope.

(** ** Strings as the code uses them *)

Module Str.

Definition TAB : ascii := "009"%char.
Definition LF : ascii := "010"%char.
Definition VT : ascii := "011"%char.
Definition FF : ascii := "012"%char.
Definition CR : ascii := "013"%char.
Definition SP : ascii := " "%char.
Definition NBSP : ascii := "160"%char.

(** [String.prototype.startsWith]. *)
Definition startsWith (s p : string) : bool := String.prefix p s.

(** [String.prototype.includes]: some suffix of [s] starts with [p]. *)
Fixpoint includes (s p : string) : bool :=
  startsWith s p ||
  match s with
  | EmptyString => false
  | String _ t => includes t p
  end.

(** Drops the longest prefix of characters satisfying [p]: a greedy [c*]
    over a character class. *)
Fixpoint skip (p : ascii -> bool) (s : string) : string :=
  match s with
  | EmptyString => EmptyString
  | String c t => if p c then skip p t else s
  end.

Fixpoint existsb (p : ascii -> bool) (s : string) : bool :=
  match s with
  | EmptyString => false
  | String c t => p c || existsb p t
  end.

Fixpoint every (p : ascii -> bool) (s : string) : bool :=
  match s with
  | EmptyString => true
  | String c t => p c && every p t
  end.

End Str.

(** ** The title pattern and [fixSubtitles] ([src/libs/Book.js], lines 9-32) *)

Module Title.
Import Str.

(** The class [[ \t]] of [LINE_BREAK_PATTERN]. *)
Definition is_blank (c : ascii) : bool :=
  Ascii.eqb c SP || Ascii.eqb c TAB.

(** The class [[\n\r]] of [LINE_BREAK_PATTERN]. *)
Definition is_break (c : ascii) : bool :=
  Ascii.eqb c LF || Ascii.eqb c CR.

(** One attempt to match [/[ \t]*[\n\r]+[ \t]*/] at the start of [s]; the
    result is the text after the match.  The three classes are disjoint, so
    the greedy match is the only one: when the blanks are not followed by a
    line break, giving blanks back cannot help. *)
Definition match_LINE_BREAK_PATTERN (s : string) : option string :=
  match skip is_blank s with
  | EmptyString => None
  | String c t =>
      if is_break c then Some (skip is_blank (skip is_break t)) else None
  end.

(** [s.replace(LINE_BREAK_PATTERN, rep)] for the global pattern: scan from
    the left, replace every match, copy every other character.  A match is
    never empty, so the scan resumes at the end of the match.  [fuel]
    bounds the number of scan steps. *)
Fixpoint replace_scan (fuel : nat) (rep s : string) : string :=
  match fuel with
  | O => s
  | S fuel' =>
      match match_LINE_BREAK_PATTERN s with
      | Some rest => rep ++ replace_scan fuel' rep rest
      | None =>
          match s with
          | EmptyString => EmptyString
          | String c t => String c (replace_scan fuel' rep t)
          end
      end
  end.

Definition replace_LINE_BREAK_PATTERN (rep s : string) : string :=
  replace_scan (String.length s) rep s.

(** [fixSubtitles].  [String.prototype.replace] takes two arguments: the
    third argument [1] of the first call is ignored, and the pattern is
    global, so the first call already replaces every match. *)
Definition fixSubtitles (title : string) : string :=
  let newTitle := replace_LINE_BREAK_PATTERN ": " title in
  replace_LINE_BREAK_PATTERN "; " newTitle.

Definition has_break (s : string) : bool := existsb is_break s.

Definition alice : string :=
  "Alice" ++ String LF "In Wonderland" ++ String LF "Second Edition".

(** The last character of the text is a blank. *)
Fixpoint endsWithBlank (s : string) : bool :=
  match s with
  | EmptyString => false
  | String c EmptyString => is_blank c
  | String _ t => endsWithBlank t
  end.

(** The first character of the text is a blank or a line break. *)
Definition startsWithSeparator (s : string) : bool :=
  match s with
  | EmptyString => false
  | String c _ => is_blank c || is_break c
  end.

End Title.

(** ** JavaScript values, exceptions and the conversions the code relies on *)

Module JS.
Import Str.

(** A thrown exception: a plain [Error] with its message, the [TypeError]
    of a member access on [undefined], or a rejection by the store. *)
Inductive exn :=
| Error (message : string)
| TypeError (message : string)
| StorageError (message : string).

(** A computation that returns or throws. *)
Inductive result (A : Type) :=
| Ok (a : A)
| Throw (e : exn).
Arguments Ok {A} a.
Arguments Throw {A} e.

Definition bind {A B} (m : result A) (k : A -> result B) : result B :=
  match m with
  | Ok a => k a
  | Throw e => Throw e
  end.

Notation "x <- m ;; k" := (bind m (fun x => k))
  (at level 61, m at next level, right associativity).

(** [arr.forEach(f)] for a callback that updates an accumulator and may
    throw: the first exception ends the loop. *)
Fixpoint forEach {A S} (f : S -> A -> result S) (l : list A) (s : S)
  : result S :=
  match l with
  | [] => Ok s
  | a :: l' => s' <- f s a ;; forEach f l' s'
  end.

(** [x.member] where [x] may be [undefined]. *)
Definition deref {A} (x : option A) : result A :=
  match x with
  | Some a => Ok a
  | None => Throw (TypeError "Cannot read properties of undefined")
  end.

Definition isTypeError (e : exn) : Prop := exists msg, e = TypeError msg.

(** The numbers the program computes: integers, and [NaN].  An integer
    stands for the double of that value, which is exact up to [2^53] in
    magnitude. *)
Inductive number :=
| NaN
| Num (z : Z).

(** Values, as far as the mapper and the store see them. *)
#[warnings="-register-all"] Inductive value :=
| VUndefined
| VNull
| VBool (b : bool)
| VNumber (n : number)
| VString (s : string)
| VArray (items : list value)
| VObject (props : list (string * value)).

(** [ToBoolean]. *)
Definition truthy (v : value) : bool :=
  match v with
  | VUndefined | VNull => false
  | VBool b => b
  | VNumber NaN => false
  | VNumber (Num z) => negb (Z.eqb z 0)
  | VString s => negb (String.eqb s "")
  | VArray _ | VObject _ => true
  end.

Fixpoint lookup (k : string) (props : list (string * value)) : value :=
  match props with
  | [] => VUndefined
  | (k', v) :: rest => if String.eqb k' k then v else lookup k rest
  end.

(** [v.k] for a value [v] that is neither [null] nor [undefined] and a key
    [k] that no prototype defines: an own property of an object, and
    [undefined] everywhere else. *)
Definition get (v : value) (k : string) : value :=
  match v with
  | VObject props => lookup k props
  | _ => VUndefined
  end.

(** [StrWhiteSpaceChar], among the code units below 256. *)
Definition is_whitespace (c : ascii) : bool :=
  Ascii.eqb c TAB || Ascii.eqb c LF || Ascii.eqb c VT || Ascii.eqb c FF
  || Ascii.eqb c CR || Ascii.eqb c SP || Ascii.eqb c NBSP.

Definition digit_value (c : ascii) : option Z :=
  let n := nat_of_ascii c in
  if (48 <=? n)%nat && (n <=? 57)%nat then Some (Z.of_nat (n - 48))
  else None.

Definition is_digit (c : ascii) : bool :=
  match digit_value c with Some _ => true | None => false end.

(** The value of the longest prefix of decimal digits; [None] when the
    text does not start with a digit. *)
Fixpoint digits (acc : option Z) (s : string) : option Z :=
  match s with
  | EmptyString => acc
  | String c t =>
      match digit_value c with
      | Some d =>
          digits (Some (10 * match acc with Some a => a | None => 0 end + d)%Z) t
      | None => acc
      end
  end.

(** [parseInt(s, 10)]: leading white space, an optional sign, then the
    longest run of decimal digits; [NaN] when there is no digit. *)
Definition parseInt (s : string) : number :=
  let s1 := skip is_whitespace s in
  let '(sign, s2) :=
    match s1 with
    | String "-" t => ((-1)%Z, t)
    | String "+" t => (1%Z, t)
    | _ => (1%Z, s1)
    end in
  match digits None s2 with
  | Some n => Num (sign * n)
  | None => NaN
  end.

(** A letter of the Latin alphabet. *)
Definition is_letter (c : ascii) : bool :=
  let n := nat_of_ascii c in
  ((65 <=? n) && (n <=? 90))%nat || ((97 <=? n) && (n <=? 122))%nat.

(** The decimal numeral of a natural number. *)
Definition decimal (n : nat) : string :=
  NilEmpty.string_of_uint (Nat.to_uint n).

(** *** [isNaN(Number(s))]: the [StringNumericLiteral] grammar *)

Fixpoint dropWhile {A} (p : A -> bool) (l : list A) : list A :=
  match l with
  | [] => []
  | a :: l' => if p a then dropWhile p l' else l
  end.

(** White space is trimmed on both sides. *)
Definition trim (l : list ascii) : list ascii :=
  rev (dropWhile is_whitespace (rev (dropWhile is_whitespace l))).

Definition dropSign (l : list ascii) : list ascii :=
  match l with
  | "+"%char :: r | "-"%char :: r => r
  | _ => l
  end.

Definition is_e (c : ascii) : bool := Ascii.eqb c "e" || Ascii.eqb c "E".

Definition is_hex (c : ascii) : bool :=
  let n := nat_of_ascii c in
  is_digit c || ((65 <=? n) && (n <=? 70))%nat || ((97 <=? n) && (n <=? 102))%nat.

Definition is_octal (c : ascii) : bool :=
  let n := nat_of_ascii c in ((48 <=? n) && (n <=? 55))%nat.

Definition is_binary (c : ascii) : bool :=
  Ascii.eqb c "0" || Ascii.eqb c "1".

Definition nonEmpty {A} (l : list A) : bool :=
  match l with [] => false | _ => true end.

(** [ExponentPart], or nothing, up to the end of the text. *)
Definition exponentOrEnd (l : list ascii) : bool :=
  match l with
  | [] => true
  | c :: r =>
      is_e c && nonEmpty (dropSign r) && forallb is_digit (dropSign r)
  end.

(** [StrUnsignedDecimalLiteral]. *)
Definition unsignedDecimal (l : list ascii) : bool :=
  if String.eqb (string_of_list_ascii l) "Infinity" then true
  else
    let r1 := dropWhile is_digit l in
    let hasInt := negb (List.length r1 =? List.length l)%nat in
    match r1 with
    | "."%char :: r =>
        let r2 := dropWhile is_digit r in
        let hasFrac := negb (List.length r2 =? List.length r)%nat in
        (hasInt || hasFrac) && exponentOrEnd r2
    | _ => hasInt && exponentOrEnd r1
    end.

(** [NonDecimalIntegerLiteral]: no sign, a prefix and at least one digit. *)
Definition nonDecimal (l : list ascii) : bool :=
  match l with
  | "0"%char :: x :: r =>
      nonEmpty r &&
      ((Ascii.eqb x "x" || Ascii.eqb x "X") && forallb is_hex r
       || (Ascii.eqb x "o" || Ascii.eqb x "O") && forallb is_octal r
       || (Ascii.eqb x "b" || Ascii.eqb x "B") && forallb is_binary r)
  | _ => false
  end.

(** [isNaN(Number(s))]: white space alone converts to [0]. *)
Definition isNaN_Number (s : string) : bool :=
  let l := trim (list_ascii_of_string s) in
  match l with
  | [] => false
  | _ => negb (unsignedDecimal (dropSign l) || nonDecimal l)
  end.

End JS.

(** ** The DOM of [xmldom], as far as the parser reads it *)

Module Dom.

#[warnings="-register-all"] Inductive node :=
| Element (namespaceURI localName : string)
          (attributes : list (string * string)) (childNodes : list node)
| Text (data : string)
| Comment (data : string).

(** Every node below [n], in document order; [n] itself is not among them. *)
Fixpoint descendants (n : node) : list node :=
  match n with
  | Element _ _ _ cs =>
      (fix below (l : list node) : list node :=
         match l with
         | [] => []
         | c :: l' => (c :: descendants c) ++ below l'
         end)%list cs
  | Text _ | Comment _ => []
  end.

Definition isElementNS (ns name : string) (n : node) : bool :=
  match n with
  | Element ns' name' _ _ => String.eqb ns' ns && String.eqb name' name
  | Text _ | Comment _ => false
  end.

(** [base.getElementsByTagNameNS(ns, name)]: the matching elements below
    [base], in document order. *)
Definition getElementsByTagNameNS (base : node) (ns name : string)
  : list node :=
  filter (isElementNS ns name) (descendants base).

(** [list[0]]: the first item, or [undefined]. *)
Definition item0 {A} (l : list A) : option A :=
  match l with
  | [] => None
  | a :: _ => Some a
  end.

(** [node.textContent]: the text below the node, comments left out. *)
Fixpoint textContent (n : node) : string :=
  match n with
  | Text d => d
  | Comment d => d
  | Element _ _ _ cs =>
      (fix below (l : list node) : string :=
         match l with
         | [] => ""
         | Comment _ :: l' => below l'
         | c :: l' => textContent c ++ below l'
         end) cs
  end.

Fixpoint attributeValue (qname : string) (attrs : list (string * string))
  : string :=
  match attrs with
  | [] => ""
  | (k, v) :: rest => if String.eqb k qname then v else attributeValue qname rest
  end.

(** [el.getAttribute(qname)]: the attribute of that qualified name, or the
    empty string. *)
Definition getAttribute (n : node) (qname : string) : string :=
  match n with
  | Element _ _ attrs _ => attributeValue qname attrs
  | Text _ | Comment _ => ""
  end.

End Dom.

(** ** The parser, [getBook] ([src/libs/Book.js], lines 15-21 and 42-180) *)

Module Book.
Import Str JS Dom.

Module NAMESPACES.
Definition dc : string := "http://purl.org/dc/terms/".
Definition dcam : string := "http://purl.org/dc/dcam/".
Definition marcrel : string := "http://id.loc.gov/vocabulary/relators/".
Definition pg : string := "http://www.gutenberg.org/2009/pgterms/".
Definition rdf : string := "http://www.w3.org/1999/02/22-rdf-syntax-ns#".
End NAMESPACES.

(** An author or a translator: [{ birth, death, name }]; [None] is [null]. *)
Record Person := mkPerson {
  birth : option number;
  death : option number;
  name : string
}.

(** An entry of [formats]: [{ contentType, url }]. *)
Record Format := mkFormat {
  contentType : string;
  url : string
}.

(** The object [getBook] returns.  [None] is [null] in [title] and
    [copyright], and [undefined] in an entry of [subjects]. *)
Record Book := mkBook {
  id : number;
  title : option string;
  authors : list Person;
  translators : list Person;
  type : string;
  subjects : list (option string);
  languages : list string;
  formats : list Format;
  bookshelves : list string;
  copyright : option bool
}.

(** The callback of lines 71-81, and again of lines 88-107. *)
Definition addPerson (people : list Person) (el : node) : list Person :=
  match item0 (getElementsByTagNameNS el NAMESPACES.pg "name") with
  | None => people
  | Some nameEl =>
      let birth :=
        match item0 (getElementsByTagNameNS el NAMESPACES.pg "birthdate") with
        | Some b => Some (parseInt (textContent b))
        | None => None
        end in
      let death :=
        match item0 (getElementsByTagNameNS el NAMESPACES.pg "deathdate") with
        | Some d => Some (parseInt (textContent d))
        | None => None
        end in
      (people ++ [mkPerson birth death (textContent nameEl)])%list
  end.

(** The callback of lines 115-127. *)
Definition addSubject (subjects : list (option string)) (subject : node)
  : list (option string) :=
  match item0 (getElementsByTagNameNS subject NAMESPACES.dcam "memberOf") with
  | None => subjects
  | Some subjectType =>
      let subjectType := getAttribute subjectType "rdf:resource" in
      let value :=
        match item0 (getElementsByTagNameNS subject NAMESPACES.rdf "value") with
        | Some v => Some (textContent v)
        | None => None
        end in
      if String.eqb subjectType "dc:LCSH" then (subjects ++ [value])%list
      else subjects
  end.

(** The order of [Array.prototype.sort] without a comparator: [undefined]
    goes last, strings are compared by code units. *)
Definition sortLe (x y : option string) : bool :=
  match x, y with
  | _, None => true
  | None, Some _ => false
  | Some a, Some b => String.leb a b
  end.

Definition sortedBefore (x y : option string) : Prop := sortLe x y = true.

Fixpoint insertSorted (x : option string) (l : list (option string))
  : list (option string) :=
  match l with
  | [] => [x]
  | y :: l' => if sortLe x y then x :: l else y :: insertSorted x l'
  end.

(** [arr.sort()] on an array of strings and [undefined]. *)
Fixpoint sort (l : list (option string)) : list (option string) :=
  match l with
  | [] => []
  | x :: l' => insertSorted x (sort l')
  end.

(** The callback of lines 131-134. *)
Definition addBookshelf (shelves : list string) (bookshelf : node)
  : list string :=
  match item0 (getElementsByTagNameNS bookshelf NAMESPACES.rdf "value") with
  | Some v => (shelves ++ [textContent v])%list
  | None => shelves
  end.

(** Lines 137-143, on the text of the rights element. *)
Definition classifyRights (text : string) : option bool :=
  if startsWith text "Public domain in the USA." then Some false
  else if startsWith text "Copyrighted." then Some true
  else None.

(** The callback of lines 146-165. *)
Definition addFormat (formats : list Format) (file : node)
  : result (list Format) :=
  format <- deref (item0 (getElementsByTagNameNS file NAMESPACES.dc "format")) ;;
  match item0 (getElementsByTagNameNS format NAMESPACES.rdf "value") with
  | None => Ok formats
  | Some ct =>
      if negb (List.existsb
                 (fun f => String.eqb (contentType f) (textContent ct))
                 formats)
         || List.existsb
              (fun f => String.eqb (contentType f) (textContent ct)
                        && includes (url f) "noimages")
              formats
      then Ok (formats ++
               [mkFormat (textContent ct) (getAttribute file "rdf:about")])%list
      else Ok formats
  end.

(** The callback of lines 173-177. *)
Definition addLanguage (languages : list string) (language : node)
  : result (list string) :=
  v <- deref (item0 (getElementsByTagNameNS language NAMESPACES.rdf "value")) ;;
  Ok (languages ++ [textContent v])%list.

(** [getBook(id, xmlFilePath)].  [xml] is the document element that reading
    and parsing the file gave, [None] when either of them threw; the message
    of the error then ends with the text of the cause, which is left out.
    A parse that returns a document without a document element is not
    among the inputs. *)
Definition getBook (id : string) (xml : option node) : result Book :=
  match xml with
  | None => Throw (Error "The XML file could not be parsed.")
  | Some root =>
      let book := item0 (getElementsByTagNameNS root NAMESPACES.pg "ebook") in
      let id := parseInt id in
      book <- deref book ;;
      let authors :=
        fold_left addPerson
          (getElementsByTagNameNS book NAMESPACES.dc "creator") [] in
      let translators :=
        fold_left addPerson
          (getElementsByTagNameNS book NAMESPACES.marcrel "trl") [] in
      let title :=
        match item0 (getElementsByTagNameNS book NAMESPACES.dc "title") with
        | Some t => Some (Title.fixSubtitles (textContent t))
        | None => None
        end in
      let subjects :=
        sort (fold_left addSubject
                (getElementsByTagNameNS book NAMESPACES.dc "subject") []) in
      let bookshelves :=
        fold_left addBookshelf
          (getElementsByTagNameNS book NAMESPACES.pg "bookshelf") [] in
      rights <- deref (item0 (getElementsByTagNameNS book NAMESPACES.dc "rights")) ;;
      let copyright := classifyRights (textContent rights) in
      formats <- forEach addFormat
                   (getElementsByTagNameNS book NAMESPACES.pg "file") [] ;;
      typeEl <- deref (item0 (getElementsByTagNameNS book NAMESPACES.dc "type")) ;;
      let bookType := item0 (getElementsByTagNameNS typeEl NAMESPACES.rdf "value") in
      let type :=
        match bookType with
        | Some v => textContent v
        | None => "Text"
        end in
      languages <- forEach addLanguage
                     (getElementsByTagNameNS book NAMESPACES.dc "language") [] ;;
      Ok (mkBook id title authors translators type subjects languages formats
            bookshelves copyright)
  end.

(** *** The parts of a record document the fields are read from *)

Definition ebook (root : node) : option node :=
  item0 (getElementsByTagNameNS root NAMESPACES.pg "ebook").

Definition rightsElement (book : node) : option node :=
  item0 (getElementsByTagNameNS book NAMESPACES.dc "rights").

Definition typeElement (book : node) : option node :=
  item0 (getElementsByTagNameNS book NAMESPACES.dc "type").

Definition fileElements (book : node) : list node :=
  getElementsByTagNameNS book NAMESPACES.pg "file".

Definition subjectElements (book : node) : list node :=
  getElementsByTagNameNS book NAMESPACES.dc "subject".

Definition languageElements (book : node) : list node :=
  getElementsByTagNameNS book NAMESPACES.dc "language".

(** The literal value of an element: the text of the first [rdf:value]
    element below it, when there is one. *)
Definition valueElement (el : node) : option node :=
  item0 (getElementsByTagNameNS el NAMESPACES.rdf "value").

Definition formatElement (file : node) : option node :=
  item0 (getElementsByTagNameNS file NAMESPACES.dc "format").

(** The content-type value of a file element. *)
Definition contentTypeValue (file : node) : option string :=
  match formatElement file with
  | Some format => option_map textContent (valueElement format)
  | None => None
  end.

(** The classification value of a work. *)
Definition classificationValue (book : node) : option string :=
  match typeElement book with
  | Some t => option_map textContent (valueElement t)
  | None => None
  end.

(** The vocabulary scheme of a subject: the [rdf:resource] attribute of its
    first [dcam:memberOf] element. *)
Definition scheme (subject : node) : option string :=
  option_map (fun m => getAttribute m "rdf:resource")
    (item0 (getElementsByTagNameNS subject NAMESPACES.dcam "memberOf")).

Definition subjectValue (subject : node) : option string :=
  option_map textContent (valueElement subject).

Definition isLCSH (subject : node) : bool :=
  match scheme subject with
  | Some s => String.eqb s "dc:LCSH"
  | None => false
  end.

(** The subjects that are kept: the values of the subjects of the LCSH
    scheme, in document order. *)
Definition keptSubjects (book : node) : list (option string) :=
  map subjectValue (filter isLCSH (subjectElements book)).

(** The keep rule of the formats, as the specification words it: no entry
    has the content type yet, or some entry that has it is a ["noimages"]
    variant. *)
Definition keepRule (formats : list Format) (ct : string) : Prop :=
  (forall f, In f formats -> contentType f <> ct) \/
  (exists f, In f formats /\ contentType f = ct /\
             exists a b, url f = a ++ "noimages" ++ b).

(** [collected files acc out]: processing [files] in order from the entries
    [acc] ends with the entries [out], a pair being appended exactly when
    the file has a content-type value that passes the keep rule. *)
Inductive collected : list node -> list Format -> list Format -> Prop :=
| collected_done acc : collected [] acc acc
| collected_keep file files acc out ct :
    contentTypeValue file = Some ct ->
    keepRule acc ct ->
    collected files
      (acc ++ [mkFormat ct (getAttribute file "rdf:about")])%list out ->
    collected (file :: files) acc out
| collected_skip file files acc out :
    (forall ct, contentTypeValue file = Some ct -> ~ keepRule acc ct) ->
    collected files acc out ->
    collected (file :: files) acc out.

(** *** The people, the shelves and the title of a record document *)

Definition creatorElements (book : node) : list node :=
  getElementsByTagNameNS book NAMESPACES.dc "creator".

Definition translatorElements (book : node) : list node :=
  getElementsByTagNameNS book NAMESPACES.marcrel "trl".

Definition bookshelfElements (book : node) : list node :=
  getElementsByTagNameNS book NAMESPACES.pg "bookshelf".

Definition titleElement (book : node) : option node :=
  item0 (getElementsByTagNameNS book NAMESPACES.dc "title").

(** The year in the first element of that name below [el], as [parseInt]
    reads it. *)
Definition yearOf (el : node) (tag : string) : option number :=
  option_map (fun e => parseInt (textContent e))
    (item0 (getElementsByTagNameNS el NAMESPACES.pg tag)).

(** The person an agent element describes, when it has a name. *)
Definition personOf (el : node) : option Person :=
  option_map
    (fun n => mkPerson (yearOf el "birthdate") (yearOf el "deathdate")
                (textContent n))
    (item0 (getElementsByTagNameNS el NAMESPACES.pg "name")).

(** The entries that are there, in order. *)
Fixpoint present {A} (l : list (option A)) : list A :=
  match l with
  | [] => []
  | Some a :: l' => a :: present l'
  | None :: l' => present l'
  end.

(** The file has that content type. *)
Definition hasContentType (ct : string) (file : node) : bool :=
  match contentTypeValue file with
  | Some c => String.eqb c ct
  | None => false
  end.

(** The entry has that content type. *)
Definition ofType (ct : string) (f : Format) : bool :=
  String.eqb (contentType f) ct.

(** The entry a file element gives when it is kept. *)
Definition entryOf (ct : string) (file : node) : Format :=
  mkFormat ct (getAttribute file "rdf:about").

(** *** The returned object as a JavaScript value

    The keys are those of the object literals of lines 55-67, 72 and 163. *)

Definition numberOrNull (x : option number) : value :=
  match x with
  | Some n => VNumber n
  | None => VNull
  end.

Definition personValue (p : Person) : value :=
  VObject [("birth", numberOrNull (birth p));
           ("death", numberOrNull (death p));
           ("name", VString (name p))].

Definition formatValue (f : Format) : value :=
  VObject [("contentType", VString (contentType f));
           ("url", VString (url f))].

Definition stringOrUndefined (x : option string) : value :=
  match x with
  | Some s => VString s
  | None => VUndefined
  end.

Definition bookValue (b : Book) : value :=
  VObject
    [("id", VNumber (id b));
     ("title", match title b with Some t => VString t | None => VNull end);
     ("authors", VArray (map personValue (authors b)));
     ("translators", VArray (map personValue (translators b)));
     ("type", VString (type b));
     ("subjects", VArray (map stringOrUndefined (subjects b)));
     ("languages", VArray (map VString (languages b)));
     ("formats", VArray (map formatValue (formats b)));
     ("bookshelves", VArray (map VString (bookshelves b)));
     ("copyright",
      match copyright b with Some c => VBool c | None => VNull end)].

(** *** Record documents used as concrete inputs *)

Module Samples.

(** [<rdf:Description><rdf:value>text</rdf:value></rdf:Description>]. *)
Definition literal (text : string) : node :=
  Element NAMESPACES.rdf "Description" []
    [Element NAMESPACES.rdf "value" [] [Text text]].

Definition subjectEl (schemeName text : string) : node :=
  Element NAMESPACES.dc "subject" []
    [Element NAMESPACES.rdf "Description" []
       [Element NAMESPACES.dcam "memberOf" [("rdf:resource", schemeName)] [];
        Element NAMESPACES.rdf "value" [] [Text text]]].

(** A subject of the LCSH scheme that carries no value. *)
Definition bareSubjectEl : node :=
  Element NAMESPACES.dc "subject" []
    [Element NAMESPACES.rdf "Description" []
       [Element NAMESPACES.dcam "memberOf" [("rdf:resource", "dc:LCSH")] []]].

Definition fileEl (about mime : string) : node :=
  Element NAMESPACES.pg "file" [("rdf:about", about)]
    [Element NAMESPACES.dc "format" [] [literal mime]].

(** A file element without a format element. *)
Definition bareFileEl (about : string) : node :=
  Element NAMESPACES.pg "file" [("rdf:about", about)] [].

Definition rightsEl (text : string) : node :=
  Element NAMESPACES.dc "rights" [] [Text text].

Definition typeEl (text : string) : node :=
  Element NAMESPACES.dc "type" [] [literal text].

Definition languageEl (code : string) : node :=
  Element NAMESPACES.dc "language" [] [literal code].

Definition creatorEl (who born died : string) : node :=
  Element NAMESPACES.dc "creator" []
    [Element NAMESPACES.pg "agent" []
       [Element NAMESPACES.pg "name" [] [Text who];
        Element NAMESPACES.pg "birthdate" [] [Text born];
        Element NAMESPACES.pg "deathdate" [] [Text died]]].

Definition bookshelfEl (label : string) : node :=
  Element NAMESPACES.pg "bookshelf" [] [literal label].

(** [<rdf:RDF><pg:ebook>parts</pg:ebook></rdf:RDF>]. *)
Definition record (parts : list node) : node :=
  Element NAMESPACES.rdf "RDF" []
    [Element NAMESPACES.pg "ebook" [("rdf:about", "ebooks/11")] parts].

(** A complete record. *)
Definition wonderland : node :=
  record
    [Element NAMESPACES.dc "title" [] [Text Title.alice];
     creatorEl "Carroll, Lewis" "1832" "1898";
     subjectEl "dc:LCSH" "Zebras";
     subjectEl "other" "Ignored";
     subjectEl "dc:LCSH" "Apples";
     bookshelfEl "Children's Literature";
     rightsEl "Public domain in the USA.";
     fileEl "https://example.org/11.html.noimages" "text/html";
     fileEl "https://example.org/11.html.images" "text/html";
     fileEl "https://example.org/11.html.utf8" "text/html";
     fileEl "https://example.org/11.txt" "text/plain";
     fileEl "https://example.org/11-0.txt" "text/plain";
     typeEl "Sound";
     languageEl "en"].

(** A record whose only defect is a file element without a format. *)
Definition fileWithoutFormat : node :=
  record
    [Element NAMESPACES.dc "title" [] [Text "Alice"];
     rightsEl "Public domain in the USA.";
     bareFileEl "https://example.org/11.txt";
     typeEl "Text";
     languageEl "en"].

(** A record with a rights statement and no type element. *)
Definition withoutType : node :=
  record
    [Element NAMESPACES.dc "title" [] [Text "Alice"];
     rightsEl "Public domain in the USA.";
     fileEl "https://example.org/11.txt" "text/plain";
     languageEl "en"].

(** A record whose type element is empty. *)
Definition emptyType : node :=
  record
    [rightsEl "Copyrighted. Read the license.";
     Element NAMESPACES.dc "type" [] []].

(** A record whose language element has no value. *)
Definition languageWithoutValue : node :=
  record
    [rightsEl "Public domain in the USA.";
     typeEl "Text";
     Element NAMESPACES.dc "language" [] []].

(** A record without a rights statement. *)
Definition withoutRights : node :=
  record [typeEl "Text"; languageEl "en"].

(** A record whose rights statement only mentions the two prefixes. *)
Definition otherRights : node :=
  record
    [rightsEl "Not Copyrighted. Public domain in the USA.";
     typeEl "Text"].

(** A record with an LCSH subject that has no value. *)
Definition subjectWithoutValue : node :=
  record
    [subjectEl "dc:LCSH" "Zebras";
     bareSubjectEl;
     subjectEl "dc:LCSH" "Apples";
     rightsEl "Public domain in the USA.";
     typeEl "Text"].

(** A record with two files of one content type, the first of them a
    ["noimages"] variant. *)
Definition twoHtmlFiles : node :=
  record
    [rightsEl "Public domain in the USA.";
     fileEl "https://example.org/11/noimages" "text/html";
     fileEl "https://example.org/11/withimages" "text/html";
     typeEl "Text"].

(** A record with two LCSH subjects and one of another scheme. *)
Definition threeSubjects : node :=
  record
    [subjectEl "dc:LCSH" "Zebras";
     subjectEl "other" "Ignored";
     subjectEl "dc:LCSH" "Apples";
     rightsEl "Public domain in the USA.";
     typeEl "Text"].

(** A record with a creator without a name, a translator, two shelves of
    which one has no label, and a language that occurs twice. *)
Definition manyParts : node :=
  record
    [Element NAMESPACES.dc "title" []
       [Text ("Sylvie and Bruno" ++ String Str.LF "Concluded")];
     Element NAMESPACES.dc "creator" []
       [Element NAMESPACES.pg "agent" []
          [Element NAMESPACES.pg "birthdate" [] [Text "1832"]]];
     creatorEl "Carroll, Lewis" "1832" "1898";
     Element NAMESPACES.marcrel "trl" []
       [Element NAMESPACES.pg "agent" []
          [Element NAMESPACES.pg "name" [] [Text "Aesop"];
           Element NAMESPACES.pg "birthdate" [] [Text "-620"]]];
     bookshelfEl "Fantasy";
     Element NAMESPACES.pg "bookshelf" [] [];
     bookshelfEl "Children's Fiction";
     rightsEl "Public domain in the USA.";
     typeEl "Text";
     languageEl "en";
     languageEl "fr";
     languageEl "en"].

(** A record whose first ["text/plain"] file is not a ["noimages"]
    variant, and whose first ["text/html"] file is. *)
Definition fiveFiles : node :=
  record
    [rightsEl "Public domain in the USA.";
     fileEl "https://example.org/7.txt" "text/plain";
     fileEl "https://example.org/7.html.noimages" "text/html";
     fileEl "https://example.org/7.txt.noimages" "text/plain";
     fileEl "https://example.org/7.html.images" "text/html";
     Element NAMESPACES.pg "file" [("rdf:about", "https://example.org/7")]
       [Element NAMESPACES.dc "format" [] []];
     typeEl "Text"].

End Samples.

End Book.

(** ** The updater script: the mapper and the upsert loop *)

Module Updater.
Import JS Dom Book.

(** [class BookDTO]: the ten properties its constructor assigns. *)
Record BookDTO := mkBookDTO {
  gutenbergId : value;
  title : value;
  authors : value;
  translators : value;
  type : value;
  subjects : value;
  languages : value;
  formats : value;
  bookShelves : value;
  copyright : value
}.

(** A DTO as the object it is. *)
Definition dtoValue (d : BookDTO) : value :=
  VObject
    [("gutenbergId", gutenbergId d);
     ("title", title d);
     ("authors", authors d);
     ("translators", translators d);
     ("type", type d);
     ("subjects", subjects d);
     ("languages", languages d);
     ("formats", formats d);
     ("bookShelves", bookShelves d);
     ("copyright", copyright d)].

(** [mapBookToBookResponseDTO(book)]. *)
Definition mapBookToBookResponseDTO (book : value) : result BookDTO :=
  if negb (truthy book) then Throw (Error "Book entity is required")
  else
    Ok (mkBookDTO
          (get book "id")
          (get book "title")
          (get book "authors")
          (get book "translators")
          (get book "type")
          (get book "subjects")
          (get book "languages")
          (get book "formats")
          (get book "bookShelves")
          (get book "copyright")).

(** *** The store *)

(** Modelled from the spec: a document of the store, which is not part of
    the sources beyond its schema: the mapped fields, and the [downloads]
    counter that "is never populated by this pipeline". *)
Record Document := mkDocument {
  fields : BookDTO;
  downloads : value
}.

Definition Store := list Document.

(** The external identifier a value stands for, when it is an integer. *)
Definition externalId (v : value) : option Z :=
  match v with
  | VNumber (Num z) => Some z
  | _ => None
  end.

Definition hasId (key : Z) (d : Document) : bool :=
  match externalId (gutenbergId (fields d)) with
  | Some k => Z.eqb k key
  | None => false
  end.

(** The external identifiers present in a store. *)
Fixpoint ids (store : Store) : list Z :=
  match store with
  | [] => []
  | d :: rest =>
      match externalId (gutenbergId (fields d)) with
      | Some k => k :: ids rest
      | None => ids rest
      end
  end.

(** Modelled from the spec: the store operation behind
    [db.book.findOneAndUpdate(filter, bookDTO, { upsert: true, ... })], which
    is not part of the sources.  "Insert-or-update keyed by external
    identifier; full field replacement, no merge", "inserting default field
    values when no prior record exists, replacing all mapped fields
    otherwise": the first document with the identifier gets the mapped
    fields of the update, and when there is none a document with these
    fields and an unset [downloads] is added. *)
Fixpoint upsert (key : Z) (update : BookDTO) (store : Store) : Store :=
  match store with
  | [] => [mkDocument update VUndefined]
  | d :: rest =>
      if hasId key d then mkDocument update (downloads d) :: rest
      else d :: upsert key update rest
  end.

(** Modelled from the spec: [findOneAndUpdate] with the filter
    [{ gutenbergId: filterId }].  The external identifier is an "integer
    (unique, required)": a filter value that is not an integer is rejected
    and the store is left as it is. *)
Definition findOneAndUpdate (filterId : value) (update : BookDTO)
  (store : Store) : result Store :=
  match externalId filterId with
  | Some key => Ok (upsert key update store)
  | None => Throw (StorageError "gutenbergId is not an integer")
  end.

(** *** The loop of [downloadExtractUpsert] (lines 253-270) *)

(** The body of the loop for a numeric subdirectory; [xml] is what reading
    and parsing [pg<subdirectory>.rdf] gives. *)
Definition upsertRecord (subdirectory : string) (xml : option node)
  (store : Store) : result Store :=
  book <- getBook subdirectory xml ;;
  bookDTO <- mapBookToBookResponseDTO (bookValue book) ;;
  findOneAndUpdate (gutenbergId bookDTO) bookDTO store.

(** The loop over the subdirectories of the extracted tree: the store it
    leaves, and the exception that ended it, if any. *)
Fixpoint upsertAll (subdirectories : list (string * option node))
  (store : Store) : Store * option exn :=
  match subdirectories with
  | [] => (store, None)
  | (subdirectory, xml) :: rest =>
      if negb (isNaN_Number subdirectory) then
        match upsertRecord subdirectory xml store with
        | Ok store' => upsertAll rest store'
        | Throw e => (store, Some e)
        end
      else upsertAll rest store
  end.

(** *** What a run asks of the store

    The parsing and the mapping of an iteration do not read the store: a run
    amounts to a sequence of upserts, and possibly an exception. *)

(** The identifier and the DTO an iteration upserts. *)
Definition recordUpdate (subdirectory : string) (xml : option node)
  : result (Z * BookDTO) :=
  book <- getBook subdirectory xml ;;
  bookDTO <- mapBookToBookResponseDTO (bookValue book) ;;
  match externalId (gutenbergId bookDTO) with
  | Some key => Ok (key, bookDTO)
  | None => Throw (StorageError "gutenbergId is not an integer")
  end.

(** The upserts of a run, in order, and the exception that ends it. *)
Fixpoint updates (subdirectories : list (string * option node))
  : list (Z * BookDTO) * option exn :=
  match subdirectories with
  | [] => ([], None)
  | (subdirectory, xml) :: rest =>
      if negb (isNaN_Number subdirectory) then
        match recordUpdate subdirectory xml with
        | Ok u => (u :: fst (updates rest), snd (updates rest))
        | Throw e => ([], Some e)
        end
      else updates rest
  end.

Definition upserts (us : list (Z * BookDTO)) (store : Store) : Store :=
  fold_left (fun s u => upsert (fst u) (snd u) s) us store.

(** An update carries the identifier it is keyed by. *)
Definition keyed (u : Z * BookDTO) : Prop :=
  externalId (gutenbergId (snd u)) = Some (fst u).

(** A tree whose second record has no type element. *)
Definition brokenTree : list (string * option node) :=
  [("11", Some Samples.wonderland);
   ("12", Some Samples.withoutType);
   ("13", Some Samples.twoHtmlFiles)].

(** A tree with two records and a housekeeping directory. *)
Definition sampleTree : list (string * option node) :=
  [("11", Some Samples.wonderland);
   ("README", None);
   ("12", Some Samples.twoHtmlFiles);
   ("011", Some Samples.threeSubjects)].

End Updater.

(** * Properties *)

Import Str Title JS Dom Book Book.Samples.

(** ** Strings *)

Lemma startsWith_iff s p :
  startsWith s p = true <-> exists rest, s = p ++ rest.
Proof.
  unfold startsWith. revert s. induction p as [|c p IH]; intros s; simpl.
  - destruct s; split; eauto.
  - destruct s as [|d s]; simpl.
    + split; [discriminate | intros [r Hr]; discriminate].
    + destruct (ascii_dec c d) as [->|n].
      * rewrite IH. split; intros [r Hr]; exists r; congruence.
      * split; [discriminate | intros [r Hr]; congruence].
Qed.

Lemma includes_iff s p :
  includes s p = true <-> exists a b, s = a ++ p ++ b.
Proof.
  induction s as [|c s IH]; cbn [includes];
    rewrite orb_true_iff, startsWith_iff.
  - split.
    + intros [[r Hr]|H]; [|discriminate]. exists "", r. exact Hr.
    + intros [a [b H]]. left. destruct a; [|discriminate]. eauto.
  - rewrite IH. split.
    + intros [[r Hr]|[a [b H]]].
      * exists "", r. exact Hr.
      * exists (String c a), b. simpl. now rewrite H.
    + intros [a [b H]]. destruct a as [|d a]; simpl in H.
      * left. eauto.
      * right. exists a, b. congruence.
Qed.

Lemma skip_length p s : String.length (skip p s) <= String.length s.
Proof.
  induction s as [|c s IH]; simpl; [lia|]. destruct (p c); simpl; lia.
Qed.

Lemma existsb_append p a b :
  existsb p (a ++ b) = existsb p a || existsb p b.
Proof.
  induction a as [|c a IH]; simpl; [reflexivity|].
  now rewrite IH, orb_assoc.
Qed.

Lemma existsb_skip p q s :
  existsb p s = false -> existsb p (skip q s) = false.
Proof.
  induction s as [|c s IH]; simpl; [auto|].
  intros H. apply orb_false_iff in H as [Hc Hs].
  destruct (q c); simpl; [auto | now rewrite Hc, Hs].
Qed.

(** ** The title normalisation *)

Lemma match_shorter s rest :
  match_LINE_BREAK_PATTERN s = Some rest ->
  String.length rest < String.length s.
Proof.
  unfold match_LINE_BREAK_PATTERN. intros H.
  pose proof (skip_length is_blank s) as H1.
  destruct (skip is_blank s) as [|c t]; [discriminate|].
  destruct (is_break c); [|discriminate]. injection H as <-.
  pose proof (skip_length is_break t).
  pose proof (skip_length is_blank (skip is_break t)).
  simpl in H1. lia.
Qed.

(** Any fuel of at least the length of the text gives the same result. *)
Lemma replace_scan_enough rep fuel : forall s fuel',
  String.length s <= fuel -> String.length s <= fuel' ->
  replace_scan fuel rep s = replace_scan fuel' rep s.
Proof.
  induction fuel as [|fuel IH]; intros s fuel' H H'.
  - destruct s; [|simpl in H; lia]. destruct fuel'; reflexivity.
  - destruct fuel' as [|fuel'].
    + destruct s; [reflexivity | simpl in H'; lia].
    + simpl. destruct (match_LINE_BREAK_PATTERN s) as [rest|] eqn:E.
      * apply match_shorter in E. f_equal. apply IH; lia.
      * destruct s as [|c t]; [reflexivity|]. simpl in H, H'.
        f_equal. apply IH; lia.
Qed.

(** The defining equations of the replacement, free of fuel. *)
Lemma replace_match rep s rest :
  match_LINE_BREAK_PATTERN s = Some rest ->
  replace_LINE_BREAK_PATTERN rep s =
  rep ++ replace_LINE_BREAK_PATTERN rep rest.
Proof.
  intros E. unfold replace_LINE_BREAK_PATTERN.
  pose proof (match_shorter _ _ E) as L.
  destruct (String.length s) as [|n] eqn:Hn; [lia|].
  simpl. rewrite E. f_equal. apply replace_scan_enough; lia.
Qed.

Lemma replace_nomatch rep c t :
  match_LINE_BREAK_PATTERN (String c t) = None ->
  replace_LINE_BREAK_PATTERN rep (String c t) =
  String c (replace_LINE_BREAK_PATTERN rep t).
Proof.
  intros E. unfold replace_LINE_BREAK_PATTERN. simpl. now rewrite E.
Qed.

Lemma replace_empty rep : replace_LINE_BREAK_PATTERN rep "" = "".
Proof. reflexivity. Qed.

Lemma match_none_no_break s :
  has_break s = false -> match_LINE_BREAK_PATTERN s = None.
Proof.
  intros H. unfold match_LINE_BREAK_PATTERN.
  apply (existsb_skip _ is_blank) in H.
  destruct (skip is_blank s) as [|c t]; [reflexivity|].
  simpl in H. apply orb_false_iff in H as [-> _]. reflexivity.
Qed.

Lemma match_none_head c t :
  match_LINE_BREAK_PATTERN (String c t) = None -> is_break c = false.
Proof.
  unfold match_LINE_BREAK_PATTERN. simpl.
  destruct (is_blank c) eqn:B.
  - intros _. unfold is_blank, is_break in *.
    apply orb_true_iff in B as [B|B]; apply Ascii.eqb_eq in B; subst;
      reflexivity.
  - destruct (is_break c); [discriminate | reflexivity].
Qed.

(** A text without line breaks is left as it is. *)
Lemma replace_no_break rep s :
  has_break s = false -> replace_LINE_BREAK_PATTERN rep s = s.
Proof.
  induction s as [|c t IH]; intros H; [reflexivity|].
  rewrite replace_nomatch by now apply match_none_no_break.
  simpl in H. apply orb_false_iff in H as [_ H]. now rewrite IH.
Qed.

(** After one replacement by a text without line breaks, no line break is
    left. *)
Lemma replace_removes_breaks rep :
  has_break rep = false ->
  forall s, has_break (replace_LINE_BREAK_PATTERN rep s) = false.
Proof.
  intros Hrep s.
  remember (String.length s) as n eqn:Hn.
  assert (Hle : String.length s <= n) by lia. clear Hn.
  revert s Hle. induction n as [|n IH]; intros s Hle.
  - destruct s; [reflexivity | simpl in Hle; lia].
  - destruct (match_LINE_BREAK_PATTERN s) as [rest|] eqn:E.
    + rewrite (replace_match _ _ _ E). unfold has_break.
      rewrite existsb_append. fold (has_break rep). rewrite Hrep. simpl.
      apply IH. apply match_shorter in E. lia.
    + destruct s as [|c t]; [reflexivity|].
      rewrite (replace_nomatch _ _ _ E). unfold has_break.
      cbn [existsb]. rewrite (match_none_head _ _ E).
      apply IH. simpl in Hle. lia.
Qed.

(** The second call of [fixSubtitles] never finds a match: every title is
    normalised with [": "] alone. *)
Lemma fixSubtitles_single_pass title :
  fixSubtitles title = replace_LINE_BREAK_PATTERN ": " title.
Proof.
  unfold fixSubtitles. apply replace_no_break.
  now apply replace_removes_breaks.
Qed.

(** Blanks around a run of line breaks belong to the run; blanks elsewhere
    are kept. *)
Example fixSubtitles_blanks :
  fixSubtitles ("The  Hunting " ++ String CR (String LF "  of the Snark"))
  = "The  Hunting: of the Snark".
Proof. reflexivity. Qed.

(** C1.  On the title ["Alice\nIn Wonderland\nSecond Edition"], whose two
    line breaks should become [": "] and ["; "], [fixSubtitles] returns
    ["Alice: In Wonderland: Second Edition"]: the second line break is
    replaced with [": "] too, and the expected
    ["Alice: In Wonderland; Second Edition"] is not produced. *)
Theorem fixSubtitles_alice :
  fixSubtitles alice = "Alice: In Wonderland: Second Edition" /\
  fixSubtitles alice <> "Alice: In Wonderland; Second Edition".
Proof.
  split; [reflexivity | discriminate].
Qed.

(** ** The conversions to numbers, on examples *)

Example parseInt_84 : parseInt "84" = Num 84.
Proof. reflexivity. Qed.

Example parseInt_year : parseInt " -428 BC" = Num (-428).
Proof. reflexivity. Qed.

Example parseInt_none : parseInt "README" = NaN.
Proof. reflexivity. Qed.

Example parseInt_exp : parseInt "1e3" = Num 1.
Proof. reflexivity. Qed.

Example isNaN_README : isNaN_Number "README" = true.
Proof. reflexivity. Qed.

Example isNaN_84 : isNaN_Number "84" = false.
Proof. reflexivity. Qed.

Example isNaN_literals :
  map isNaN_Number ["1e3"; ".5"; "5."; "."; "0x1F"; "-0x1F"; "Infinity";
                    "-Infinity"; "12a"; " 7 "; "1e"; "+"; "0b12"; " "]
  = [false; false; false; true; false; true; false;
     false; true; false; true; true; true; false].
Proof. reflexivity. Qed.

(** ** When [getBook] returns *)

Lemma bind_Ok {A B} (m : result A) (k : A -> result B) b :
  bind m k = Ok b -> exists a, m = Ok a /\ k a = Ok b.
Proof. destruct m as [a|e]; simpl; [eauto | discriminate]. Qed.

Lemma deref_Ok {A} (x : option A) a : deref x = Ok a -> x = Some a.
Proof. destruct x; simpl; congruence. Qed.

(** What a returned record is made of. *)
Lemma getBook_Ok_inv id root r :
  getBook id (Some root) = Ok r ->
  exists book rights fmts typeEl langs,
    ebook root = Some book /\
    rightsElement book = Some rights /\
    forEach addFormat (fileElements book) [] = Ok fmts /\
    typeElement book = Some typeEl /\
    forEach addLanguage (languageElements book) [] = Ok langs /\
    r = mkBook (parseInt id)
          (option_map (fun t => Title.fixSubtitles (textContent t))
             (item0 (getElementsByTagNameNS book NAMESPACES.dc "title")))
          (fold_left addPerson
             (getElementsByTagNameNS book NAMESPACES.dc "creator") [])
          (fold_left addPerson
             (getElementsByTagNameNS book NAMESPACES.marcrel "trl") [])
          (match valueElement typeEl with
           | Some v => textContent v
           | None => "Text"
           end)
          (sort (fold_left addSubject (subjectElements book) []))
          langs fmts
          (fold_left addBookshelf
             (getElementsByTagNameNS book NAMESPACES.pg "bookshelf") [])
          (classifyRights (textContent rights)).
Proof.
  unfold getBook. intros H.
  apply bind_Ok in H as [book [Hb H]]. apply deref_Ok in Hb.
  apply bind_Ok in H as [rights [Hr H]]. apply deref_Ok in Hr.
  apply bind_Ok in H as [fmts [Hf H]].
  apply bind_Ok in H as [typeEl [Ht H]]. apply deref_Ok in Ht.
  apply bind_Ok in H as [langs [Hl H]].
  exists book, rights, fmts, typeEl, langs.
  repeat split; try assumption.
  injection H as <-. reflexivity.
Qed.

(** A loop returns exactly when its callback returns on every item,
    provided that this depends on the item alone. *)
Lemma forEach_returns {A S} (f : S -> A -> result S) (P : A -> Prop) :
  (forall s a, (exists s', f s a = Ok s') <-> P a) ->
  forall l s, (exists s', forEach f l s = Ok s') <-> Forall P l.
Proof.
  intros Hf. induction l as [|a l IH]; intros s; simpl.
  - split; eauto.
  - split.
    + intros [s' H]. apply bind_Ok in H as [s1 [H1 H2]].
      constructor; [apply (Hf s); eauto | apply (IH s1); eauto].
    + intros H. inversion H as [|? ? Ha Hl]; subst.
      apply (Hf s) in Ha as [s1 H1]. rewrite H1. simpl. now apply IH.
Qed.

Lemma addFormat_returns formats file :
  (exists formats', addFormat formats file = Ok formats') <->
  formatElement file <> None.
Proof.
  unfold addFormat, formatElement.
  destruct (item0 (getElementsByTagNameNS file NAMESPACES.dc "format"))
    as [format|]; simpl.
  - split; [discriminate|]. intros _.
    destruct (item0 (getElementsByTagNameNS format NAMESPACES.rdf "value"));
      [|eauto].
    match goal with |- context [if ?b then _ else _] => destruct b end; eauto.
  - split; [intros [? H]; discriminate | congruence].
Qed.

Lemma addLanguage_returns languages language :
  (exists languages', addLanguage languages language = Ok languages') <->
  valueElement language <> None.
Proof.
  unfold addLanguage, valueElement.
  destruct (item0 (getElementsByTagNameNS language NAMESPACES.rdf "value"));
    simpl.
  - split; [discriminate | eauto].
  - split; [intros [? H]; discriminate | congruence].
Qed.

(** [getBook] returns a record exactly for the documents that have a work
    element with a rights element and a type element, in which every file
    element has a format element and every language element a value
    element; it throws on every other document. *)
Lemma getBook_returns_iff id root :
  (exists r, getBook id (Some root) = Ok r) <->
  exists book,
    ebook root = Some book /\
    rightsElement book <> None /\
    Forall (fun file => formatElement file <> None) (fileElements book) /\
    typeElement book <> None /\
    Forall (fun l => valueElement l <> None) (languageElements book).
Proof.
  split.
  - intros [r H].
    apply getBook_Ok_inv in H
      as (book & rights & fmts & typeEl & langs & Hb & Hr & Hf & Ht & Hl & _).
    exists book. repeat split; try congruence.
    + eapply (forEach_returns addFormat); [apply addFormat_returns | eauto].
    + eapply (forEach_returns addLanguage); [apply addLanguage_returns | eauto].
  - intros (book & Hb & Hr & Hf & Ht & Hl).
    apply (forEach_returns addFormat _ addFormat_returns _ []) in Hf
      as [fmts Hf].
    apply (forEach_returns addLanguage _ addLanguage_returns _ []) in Hl
      as [langs Hl].
    unfold getBook. fold (ebook root). rewrite Hb. simpl.
    fold (rightsElement book). destruct (rightsElement book); [|congruence].
    simpl. fold (fileElements book). rewrite Hf. simpl.
    fold (typeElement book). destruct (typeElement book); [|congruence].
    simpl. fold (languageElements book). rewrite Hl. simpl. eauto.
Qed.

Example wonderland_parsed :
  getBook "11" (Some wonderland) =
  Ok (mkBook (Num 11) (Some "Alice: In Wonderland: Second Edition")
        [mkPerson (Some (Num 1832)) (Some (Num 1898)) "Carroll, Lewis"]
        []
        "Sound"
        [Some "Apples"; Some "Zebras"]
        ["en"]
        [mkFormat "text/html" "https://example.org/11.html.noimages";
         mkFormat "text/html" "https://example.org/11.html.images";
         mkFormat "text/html" "https://example.org/11.html.utf8";
         mkFormat "text/plain" "https://example.org/11.txt"]
        ["Children's Literature"]
        (Some false)).
Proof. reflexivity. Qed.

(** ** Which documents make [getBook] throw *)

(** C2.  On the record [languageWithoutValue], which has a work element
    with a rights statement and a type, and one language element without a
    value, [getBook] throws a [TypeError]: the absence of a language value is
    fatal, although the rights statement is there.  The same record is
    parsed once the language has its value. *)
Theorem getBook_language_without_value_throws :
  (exists book rights language,
     ebook languageWithoutValue = Some book /\
     rightsElement book = Some rights /\
     languageElements book = [language] /\
     valueElement language = None) /\
  getBook "11" (Some languageWithoutValue) =
  Throw (TypeError "Cannot read properties of undefined") /\
  getBook "11"
    (Some (record [rightsEl "Public domain in the USA.";
                   typeEl "Text";
                   languageEl "en"])) =
  Ok (mkBook (Num 11) None [] [] "Text" [] ["en"] [] [] (Some false)).
Proof.
  split; [|split; reflexivity].
  eexists; eexists; eexists. repeat split; reflexivity.
Qed.

(** The other absences that are fatal: a file element without a format
    element, and the rights statement. *)
Example getBook_file_without_format_throws :
  getBook "11" (Some fileWithoutFormat) =
  Throw (TypeError "Cannot read properties of undefined").
Proof. reflexivity. Qed.

Example getBook_without_rights_throws :
  getBook "11" (Some withoutRights) =
  Throw (TypeError "Cannot read properties of undefined").
Proof. reflexivity. Qed.

(** The absences that are not: a record with nothing but a rights statement
    and an empty type element, and with a creator without a name, a subject
    without a scheme, a bookshelf without a value and a file whose format has
    no value. *)
Example getBook_tolerated_absences :
  getBook "11"
    (Some (record [Element NAMESPACES.dc "creator" [] [];
                   Element NAMESPACES.marcrel "trl" [] [];
                   Element NAMESPACES.dc "subject" [] [];
                   Element NAMESPACES.pg "bookshelf" [] [];
                   rightsEl "";
                   Element NAMESPACES.pg "file" []
                     [Element NAMESPACES.dc "format" [] []];
                   Element NAMESPACES.dc "type" [] []])) =
  Ok (mkBook (Num 11) None [] [] "Text" [] [] [] [] None).
Proof. reflexivity. Qed.

(** ** The type of a work *)

(** A returned record has the classification value as its type, and
    ["Text"] when the type element carries no value. *)
Lemma getBook_type id root r :
  getBook id (Some root) = Ok r ->
  exists book,
    ebook root = Some book /\
    type r = match classificationValue book with
             | Some v => v
             | None => "Text"
             end.
Proof.
  intros H.
  apply getBook_Ok_inv in H
    as (book & rights & fmts & typeEl & langs & Hb & _ & _ & Ht & _ & ->).
  exists book. split; [assumption|]. simpl.
  unfold classificationValue. rewrite Ht.
  now destruct (valueElement typeEl).
Qed.

Example getBook_emptyType :
  exists r, getBook "11" (Some emptyType) = Ok r /\ type r = "Text".
Proof. eexists. split; reflexivity. Qed.

(** C5.  The record [withoutType] has a work element with a rights
    statement and no type element, hence no classification value; [getBook]
    throws a [TypeError] on it instead of returning a record of type
    ["Text"]. *)
Theorem getBook_without_type_throws :
  (exists book,
     ebook withoutType = Some book /\
     rightsElement book <> None /\
     typeElement book = None /\
     classificationValue book = None) /\
  getBook "11" (Some withoutType) =
  Throw (TypeError "Cannot read properties of undefined").
Proof.
  split; [|reflexivity].
  eexists. repeat split; try reflexivity. discriminate.
Qed.

(** ** The copyright flag *)

Lemma classifyRights_false text :
  classifyRights text = Some false <->
  exists rest, text = "Public domain in the USA." ++ rest.
Proof.
  unfold classifyRights. rewrite <- startsWith_iff.
  destruct (startsWith text "Public domain in the USA.").
  - tauto.
  - destruct (startsWith text "Copyrighted."); split; discriminate.
Qed.

Lemma classifyRights_true text :
  classifyRights text = Some true <->
  exists rest, text = "Copyrighted." ++ rest.
Proof.
  unfold classifyRights. rewrite <- (startsWith_iff text "Copyrighted.").
  destruct (startsWith text "Public domain in the USA.") eqn:P.
  - apply startsWith_iff in P as [rest ->]. simpl. split; discriminate.
  - destruct (startsWith text "Copyrighted."); split; congruence.
Qed.

Lemma classifyRights_null text :
  classifyRights text = None <->
  ~ (exists rest, text = "Public domain in the USA." ++ rest) /\
  ~ (exists rest, text = "Copyrighted." ++ rest).
Proof.
  rewrite <- classifyRights_false, <- classifyRights_true.
  destruct (classifyRights text) as [[|]|]; intuition congruence.
Qed.

(** C6.  In a returned record, [copyright] is [false] exactly when the text
    of the rights statement starts with ["Public domain in the USA."],
    [true] exactly when it starts with ["Copyrighted."], and [null] exactly
    when it starts with neither: an occurrence further inside the text does
    not count. *)
Theorem copyright_classification id root r :
  getBook id (Some root) = Ok r ->
  exists book rights,
    ebook root = Some book /\
    rightsElement book = Some rights /\
    (copyright r = Some false <->
     exists rest, textContent rights = "Public domain in the USA." ++ rest) /\
    (copyright r = Some true <->
     exists rest, textContent rights = "Copyrighted." ++ rest) /\
    (copyright r = None <->
     ~ (exists rest,
          textContent rights = "Public domain in the USA." ++ rest) /\
     ~ (exists rest, textContent rights = "Copyrighted." ++ rest)).
Proof.
  intros H.
  apply getBook_Ok_inv in H
    as (book & rights & fmts & typeEl & langs & Hb & Hr & _ & _ & _ & ->).
  exists book, rights. simpl.
  repeat split; try assumption;
    first [apply classifyRights_false | apply classifyRights_true
          | apply classifyRights_null]; assumption.
Qed.

(** On [otherRights], whose rights statement contains both prefixes without
    starting with either, the flag is [null]. *)
Lemma copyright_classification_witness :
  exists r,
    getBook "11" (Some otherRights) = Ok r /\
    copyright r = None /\
    exists book rights,
      ebook otherRights = Some book /\
      rightsElement book = Some rights /\
      (copyright r = Some false <->
       exists rest,
         textContent rights = "Public domain in the USA." ++ rest) /\
      (copyright r = Some true <->
       exists rest, textContent rights = "Copyrighted." ++ rest) /\
      (copyright r = None <->
       ~ (exists rest,
            textContent rights = "Public domain in the USA." ++ rest) /\
       ~ (exists rest, textContent rights = "Copyrighted." ++ rest)).
Proof.
  eexists. split; [reflexivity|]. split; [reflexivity|].
  apply (copyright_classification "11" otherRights). reflexivity.
Defined.

(** ** The formats of a work *)

Lemma keepRule_iff formats ct :
  negb (List.existsb (fun f => String.eqb (contentType f) ct) formats)
  || List.existsb
       (fun f => String.eqb (contentType f) ct && includes (url f) "noimages")
       formats = true
  <-> keepRule formats ct.
Proof.
  unfold keepRule. rewrite orb_true_iff, negb_true_iff. split.
  - intros [H|H].
    + left. intros f Hf E.
      assert (X : List.existsb (fun f => String.eqb (contentType f) ct) formats
                  = true).
      { apply existsb_exists. exists f. now rewrite String.eqb_eq. }
      congruence.
    + right. apply existsb_exists in H as [f [Hf H]].
      apply andb_true_iff in H as [H1 H2].
      exists f. rewrite <- includes_iff. now rewrite <- String.eqb_eq.
  - intros [H|[f [Hf [E H]]]].
    + left. apply not_true_is_false. intros X.
      apply existsb_exists in X as [f [Hf X]].
      apply String.eqb_eq in X. now apply (H f).
    + right. apply existsb_exists. exists f. split; [assumption|].
      apply includes_iff in H. rewrite H. now rewrite (proj2 (String.eqb_eq _ _)).
Qed.

(** One step of the loop over the files, when it does not throw. *)
Lemma addFormat_Ok formats file formats' :
  addFormat formats file = Ok formats' ->
  (exists ct,
     contentTypeValue file = Some ct /\ keepRule formats ct /\
     formats' =
     (formats ++ [mkFormat ct (getAttribute file "rdf:about")])%list) \/
  ((forall ct, contentTypeValue file = Some ct -> ~ keepRule formats ct) /\
   formats' = formats).
Proof.
  unfold addFormat, contentTypeValue, formatElement, valueElement.
  destruct (item0 (getElementsByTagNameNS file NAMESPACES.dc "format"))
    as [format|]; simpl; [|discriminate].
  destruct (item0 (getElementsByTagNameNS format NAMESPACES.rdf "value"))
    as [v|]; simpl.
  - match goal with |- context [if ?b then _ else _] => destruct b eqn:B end;
      intros H; injection H as <-.
    + left. exists (textContent v). apply keepRule_iff in B. auto.
    + right. split; [|reflexivity]. intros ct E K. injection E as <-.
      apply keepRule_iff in K. congruence.
  - intros H. injection H as <-. right. split; [|reflexivity]. discriminate.
Qed.

Lemma forEach_addFormat_collected files : forall acc out,
  forEach addFormat files acc = Ok out -> collected files acc out.
Proof.
  induction files as [|file files IH]; intros acc out H; simpl in H.
  - injection H as <-. constructor.
  - apply bind_Ok in H as [acc' [H1 H2]]. apply IH in H2.
    apply addFormat_Ok in H1 as [[ct [E [K ->]]]|[N ->]].
    + eapply collected_keep; eauto.
    + now apply collected_skip.
Qed.

(** Two files of one content type, the first a ["noimages"] variant: both
    pairs are collected, in order. *)
Lemma collected_noimages_pair f1 f2 ct out :
  contentTypeValue f1 = Some ct ->
  contentTypeValue f2 = Some ct ->
  (exists a b, getAttribute f1 "rdf:about" = a ++ "noimages" ++ b) ->
  collected [f1; f2] [] out ->
  out = [mkFormat ct (getAttribute f1 "rdf:about");
         mkFormat ct (getAttribute f2 "rdf:about")].
Proof.
  intros E1 E2 N H.
  assert (K1 : keepRule [] ct) by (left; intros f []).
  assert (K2 : keepRule [mkFormat ct (getAttribute f1 "rdf:about")] ct).
  { right. eexists. split; [left; reflexivity|]. split; [reflexivity|].
    exact N. }
  inversion H as [|? ? ? ? c1 Ec1 _ H1|? ? ? ? N1 _]; subst;
    [|exfalso; exact (N1 ct E1 K1)].
  assert (c1 = ct) by congruence. subst c1. simpl in H1.
  inversion H1 as [|? ? ? ? c2 Ec2 _ H2|? ? ? ? N2 _]; subst;
    [|exfalso; exact (N2 ct E2 K2)].
  assert (c2 = ct) by congruence. subst c2. simpl in H2.
  inversion H2; subst. reflexivity.
Qed.

(** C4.  In a returned record, [formats] is what processing the file
    elements in document order collects from no entry at all, a
    [(contentType, url)] pair being appended exactly when the file has a
    content-type value and either no entry has that content type yet or
    some entry that has it has a url containing ["noimages"].  So when the
    files are two of the same content type and the url of the first contains
    ["noimages"], both pairs are kept, in order. *)
Theorem formats_keep_rule id root r :
  getBook id (Some root) = Ok r ->
  exists book,
    ebook root = Some book /\
    collected (fileElements book) [] (formats r) /\
    (forall f1 f2 ct,
       fileElements book = [f1; f2] ->
       contentTypeValue f1 = Some ct ->
       contentTypeValue f2 = Some ct ->
       (exists a b, getAttribute f1 "rdf:about" = a ++ "noimages" ++ b) ->
       formats r = [mkFormat ct (getAttribute f1 "rdf:about");
                    mkFormat ct (getAttribute f2 "rdf:about")]).
Proof.
  intros H.
  apply getBook_Ok_inv in H
    as (book & rights & fmts & typeEl & langs & Hb & _ & Hf & _ & _ & ->).
  apply forEach_addFormat_collected in Hf.
  exists book. simpl. repeat split; [assumption | assumption |].
  intros f1 f2 ct E E1 E2 N. rewrite E in Hf.
  now apply (collected_noimages_pair f1 f2 ct).
Qed.

(** On [twoHtmlFiles], both ["text/html"] files are kept. *)
Lemma formats_keep_rule_witness :
  exists r,
    getBook "11" (Some twoHtmlFiles) = Ok r /\
    formats r = [mkFormat "text/html" "https://example.org/11/noimages";
                 mkFormat "text/html" "https://example.org/11/withimages"] /\
    exists book,
      ebook twoHtmlFiles = Some book /\
      collected (fileElements book) [] (formats r) /\
      (forall f1 f2 ct,
         fileElements book = [f1; f2] ->
         contentTypeValue f1 = Some ct ->
         contentTypeValue f2 = Some ct ->
         (exists a b, getAttribute f1 "rdf:about" = a ++ "noimages" ++ b) ->
         formats r = [mkFormat ct (getAttribute f1 "rdf:about");
                      mkFormat ct (getAttribute f2 "rdf:about")]).
Proof.
  eexists. split; [reflexivity|]. split; [reflexivity|].
  apply (formats_keep_rule "11" twoHtmlFiles). reflexivity.
Defined.

(** ** The subjects of a work *)

(** *** The order of the sort *)

Lemma ascii_compare_refl c : Ascii.compare c c = Eq.
Proof. unfold Ascii.compare. apply N.compare_refl. Qed.

Lemma ascii_compare_lt_trans a b c :
  Ascii.compare a b = Lt -> Ascii.compare b c = Lt -> Ascii.compare a c = Lt.
Proof.
  unfold Ascii.compare. rewrite !N.compare_lt_iff. apply N.lt_trans.
Qed.

Lemma string_compare_lt_trans a : forall b c,
  String.compare a b = Lt -> String.compare b c = Lt ->
  String.compare a c = Lt.
Proof.
  induction a as [|x a IH]; intros [|y b] [|z c]; simpl;
    try congruence.
  destruct (Ascii.compare x y) eqn:Exy; try discriminate;
    destruct (Ascii.compare y z) eqn:Eyz; try discriminate.
  - apply Ascii.compare_eq_iff in Exy, Eyz. subst.
    rewrite ascii_compare_refl. apply IH.
  - apply Ascii.compare_eq_iff in Exy. subst. now rewrite Eyz.
  - apply Ascii.compare_eq_iff in Eyz. subst. now rewrite Exy.
  - now rewrite (ascii_compare_lt_trans _ _ _ Exy Eyz).
Qed.

Lemma string_leb_trans a b c :
  String.leb a b = true -> String.leb b c = true -> String.leb a c = true.
Proof.
  unfold String.leb.
  destruct (String.compare a b) eqn:Eab; try discriminate;
    destruct (String.compare b c) eqn:Ebc; try discriminate; intros _ _.
  - apply String.compare_eq_iff in Eab. subst a. now rewrite Ebc.
  - apply String.compare_eq_iff in Eab. subst a. now rewrite Ebc.
  - apply String.compare_eq_iff in Ebc. subst c. now rewrite Eab.
  - now rewrite (string_compare_lt_trans _ _ _ Eab Ebc).
Qed.

Lemma sortLe_total x y : sortLe x y = false -> sortLe y x = true.
Proof.
  destruct x as [a|], y as [b|]; simpl; try congruence.
  intros H. destruct (String.leb_total a b); congruence.
Qed.

Lemma sortLe_trans x y z :
  sortedBefore x y -> sortedBefore y z -> sortedBefore x z.
Proof.
  unfold sortedBefore.
  destruct x as [a|], y as [b|], z as [c|]; simpl; try congruence.
  apply string_leb_trans.
Qed.

Lemma sortLe_antisym x y :
  sortedBefore x y -> sortedBefore y x -> x = y.
Proof.
  unfold sortedBefore.
  destruct x as [a|], y as [b|]; simpl; try congruence.
  intros H1 H2. f_equal. now apply String.leb_antisym.
Qed.

(** *** [sort] gives the sorted arrangement *)

Lemma insertSorted_perm x l : Permutation (insertSorted x l) (x :: l).
Proof.
  induction l as [|y l IH]; simpl; [reflexivity|].
  destruct (sortLe x y); [reflexivity|].
  rewrite IH. apply perm_swap.
Qed.

Lemma sort_perm l : Permutation (sort l) l.
Proof.
  induction l as [|x l IH]; simpl; [reflexivity|].
  rewrite insertSorted_perm. now constructor.
Qed.

Lemma insertSorted_sorted x l :
  Sorted sortedBefore l -> Sorted sortedBefore (insertSorted x l).
Proof.
  induction l as [|y l IH]; intros H; simpl.
  - repeat constructor.
  - destruct (sortLe x y) eqn:E.
    + constructor; [assumption|]. now constructor.
    + inversion H as [|? ? Hl Hy]; subst.
      constructor; [now apply IH|].
      apply sortLe_total in E.
      destruct l as [|z l]; simpl.
      * now constructor.
      * inversion Hy; subst. destruct (sortLe x z); now constructor.
Qed.

Lemma sort_sorted l : StronglySorted sortedBefore (sort l).
Proof.
  apply Sorted_StronglySorted.
  - intros x y z. apply sortLe_trans.
  - induction l as [|x l IH]; simpl; [constructor|].
    now apply insertSorted_sorted.
Qed.

(** There is one sorted arrangement of an array: whatever algorithm the
    engine sorts with, it gives the result of [sort]. *)
Lemma sorted_unique l : forall l',
  Permutation l l' ->
  StronglySorted sortedBefore l -> StronglySorted sortedBefore l' -> l = l'.
Proof.
  induction l as [|x l IH]; intros l' P S S'.
  - apply Permutation_nil in P. now subst.
  - destruct l' as [|y l'].
    + apply Permutation_sym, Permutation_nil in P. discriminate.
    + inversion S as [|? ? Sl Fx]; subst.
      inversion S' as [|? ? Sl' Fy]; subst.
      assert (x = y).
      { assert (Ix : In x (y :: l'))
          by (eapply Permutation_in; [exact P | now left]).
        assert (Iy : In y (x :: l))
          by (eapply Permutation_in;
              [apply Permutation_sym; exact P | now left]).
        destruct Ix as [->|Ix]; [reflexivity|].
        destruct Iy as [->|Iy]; [reflexivity|].
        rewrite Forall_forall in Fx, Fy.
        apply sortLe_antisym; auto. }
      subst y. f_equal. apply IH; try assumption.
      now apply Permutation_cons_inv in P.
Qed.

(** *** The subjects that are collected *)

Lemma addSubject_eq acc subject :
  addSubject acc subject =
  if isLCSH subject then (acc ++ [subjectValue subject])%list else acc.
Proof.
  unfold addSubject, isLCSH, scheme, subjectValue, valueElement.
  destruct (item0 (getElementsByTagNameNS subject NAMESPACES.dcam "memberOf"));
    simpl; [|reflexivity].
  destruct (String.eqb _ "dc:LCSH"); [|reflexivity].
  now destruct (item0 (getElementsByTagNameNS subject NAMESPACES.rdf "value")).
Qed.

Lemma fold_addSubject l : forall acc,
  fold_left addSubject l acc =
  (acc ++ map subjectValue (filter isLCSH l))%list.
Proof.
  induction l as [|s l IH]; intros acc; simpl.
  - now rewrite app_nil_r.
  - rewrite IH, addSubject_eq. destruct (isLCSH s); [|reflexivity].
    simpl. now rewrite <- app_assoc.
Qed.

Lemma isLCSH_iff subject :
  isLCSH subject = true <-> scheme subject = Some "dc:LCSH".
Proof.
  unfold isLCSH. destruct (scheme subject) as [s|].
  - rewrite String.eqb_eq. split; congruence.
  - split; discriminate.
Qed.

(** The subjects of a returned record. *)
Lemma getBook_subjects id root r :
  getBook id (Some root) = Ok r ->
  exists book,
    ebook root = Some book /\ subjects r = sort (keptSubjects book).
Proof.
  intros H.
  apply getBook_Ok_inv in H
    as (book & rights & fmts & typeEl & langs & Hb & _ & _ & _ & _ & ->).
  exists book. split; [assumption|]. simpl. now rewrite fold_addSubject.
Qed.

Lemma in_keptSubjects book v :
  In v (keptSubjects book) <->
  exists s, In s (subjectElements book) /\
            scheme s = Some "dc:LCSH" /\ subjectValue s = v.
Proof.
  unfold keptSubjects. rewrite in_map_iff. split.
  - intros [s [E Hs]]. apply filter_In in Hs as [Hs L].
    apply isLCSH_iff in L. eauto.
  - intros [s [Hs [L E]]]. exists s. split; [assumption|].
    apply filter_In. split; [assumption|]. now apply isLCSH_iff.
Qed.

(** C7.  In a returned record, [subjects] holds the values of exactly the
    subject elements whose scheme (the [rdf:resource] attribute of their
    [dcam:memberOf] element) equals ["dc:LCSH"], each as often as it occurs,
    the subjects of every other scheme being left out; and it is sorted
    ascending: strings in lexicographic order of their code units. *)
Theorem subjects_lcsh_sorted id root r :
  getBook id (Some root) = Ok r ->
  exists book,
    ebook root = Some book /\
    Permutation (subjects r) (keptSubjects book) /\
    (forall v, In v (subjects r) <->
       exists s, In s (subjectElements book) /\
                 scheme s = Some "dc:LCSH" /\ subjectValue s = v) /\
    StronglySorted sortedBefore (subjects r) /\
    (forall l, Permutation l (keptSubjects book) ->
               StronglySorted sortedBefore l -> l = subjects r).
Proof.
  intros H. apply getBook_subjects in H as (book & Hb & ->).
  exists book.
  assert (P : Permutation (sort (keptSubjects book)) (keptSubjects book))
    by apply sort_perm.
  repeat split; try assumption.
  - intros Hv. apply in_keptSubjects. now apply (Permutation_in _ P).
  - intros Hv. apply (Permutation_in _ (Permutation_sym P)).
    now apply in_keptSubjects.
  - apply sort_sorted.
  - intros l Pl Sl. apply sorted_unique; try assumption; [|apply sort_sorted].
    rewrite Pl. now apply Permutation_sym.
Qed.

(** On [threeSubjects], with the LCSH subjects ["Zebras"] and ["Apples"]
    and the subject ["Ignored"] of another scheme, the subjects are
    ["Apples"] and ["Zebras"]. *)
Lemma subjects_lcsh_sorted_witness :
  exists r,
    getBook "11" (Some threeSubjects) = Ok r /\
    subjects r = [Some "Apples"; Some "Zebras"] /\
    exists book,
      ebook threeSubjects = Some book /\
      Permutation (subjects r) (keptSubjects book) /\
      (forall v, In v (subjects r) <->
         exists s, In s (subjectElements book) /\
                   scheme s = Some "dc:LCSH" /\ subjectValue s = v) /\
      StronglySorted sortedBefore (subjects r) /\
      (forall l, Permutation l (keptSubjects book) ->
                 StronglySorted sortedBefore l -> l = subjects r).
Proof.
  eexists. split; [reflexivity|]. split; [reflexivity|].
  apply (subjects_lcsh_sorted "11" threeSubjects). reflexivity.
Defined.

(** C10.  When a subject element of the LCSH scheme has no [rdf:value]
    element in it, the returned [subjects] contains an [undefined] entry:
    its entries are not all strings. *)
Theorem lcsh_subject_without_value id root r :
  getBook id (Some root) = Ok r ->
  exists book,
    ebook root = Some book /\
    forall s,
      In s (subjectElements book) ->
      scheme s = Some "dc:LCSH" ->
      valueElement s = None ->
      In None (subjects r) /\
      List.length (subjects r) = List.length (keptSubjects book).
Proof.
  intros H. apply getBook_subjects in H as (book & Hb & ->).
  exists book. split; [assumption|]. intros s Hs L V. split.
  - apply (Permutation_in _ (Permutation_sym (sort_perm _))).
    apply in_keptSubjects. exists s. repeat split; try assumption.
    unfold subjectValue. now rewrite V.
  - apply Permutation_length, sort_perm.
Qed.

(** On [subjectWithoutValue], the LCSH subject without a value gives an
    [undefined] entry, sorted after the strings. *)
Lemma lcsh_subject_without_value_witness :
  exists r,
    getBook "11" (Some subjectWithoutValue) = Ok r /\
    subjects r = [Some "Apples"; Some "Zebras"; None] /\
    In bareSubjectEl (subjectElements (Element NAMESPACES.pg "ebook"
         [("rdf:about", "ebooks/11")]
         [subjectEl "dc:LCSH" "Zebras"; bareSubjectEl;
          subjectEl "dc:LCSH" "Apples";
          rightsEl "Public domain in the USA."; typeEl "Text"])) /\
    exists book,
      ebook subjectWithoutValue = Some book /\
      forall s,
        In s (subjectElements book) ->
        scheme s = Some "dc:LCSH" ->
        valueElement s = None ->
        In None (subjects r) /\
        List.length (subjects r) = List.length (keptSubjects book).
Proof.
  eexists. split; [reflexivity|]. split; [reflexivity|].
  split; [right; left; reflexivity|].
  apply (lcsh_subject_without_value "11" subjectWithoutValue). reflexivity.
Defined.

(** ** The mapper *)

(** The DTO of a parsed record: nine properties are read from the keys the
    parser wrote, and [bookShelves] from a key it did not write. *)
Lemma mapper_on_parsed_record (b : Book) :
  Updater.mapBookToBookResponseDTO (bookValue b) =
  Ok (Updater.mkBookDTO
        (VNumber (id b))
        (match title b with Some t => VString t | None => VNull end)
        (VArray (map personValue (authors b)))
        (VArray (map personValue (translators b)))
        (VString (type b))
        (VArray (map stringOrUndefined (subjects b)))
        (VArray (map VString (languages b)))
        (VArray (map formatValue (formats b)))
        VUndefined
        (match copyright b with Some c => VBool c | None => VNull end)).
Proof. reflexivity. Qed.

(** C3.  The record parsed from [wonderland] has the bookshelf
    ["Children's Literature"] under its key [bookshelves]; in the DTO the
    mapper makes of it, [bookShelves] is [undefined] and there is no
    [bookshelves] property: the bookshelves are not carried over.  The
    identifier and the authors, with their [birth] and [death], are. *)
Theorem mapper_drops_bookshelves :
  exists b d,
    getBook "11" (Some wonderland) = Ok b /\
    Updater.mapBookToBookResponseDTO (bookValue b) = Ok d /\
    get (bookValue b) "bookshelves" =
      VArray [VString "Children's Literature"] /\
    Updater.bookShelves d = VUndefined /\
    get (Updater.dtoValue d) "bookshelves" = VUndefined /\
    get (Updater.dtoValue d) "bookShelves" = VUndefined /\
    Updater.gutenbergId d = get (bookValue b) "id" /\
    Updater.authors d =
      VArray [VObject [("birth", VNumber (Num 1832));
                       ("death", VNumber (Num 1898));
                       ("name", VString "Carroll, Lewis")]].
Proof.
  eexists. eexists. split; [reflexivity|]. split; [reflexivity|].
  repeat split.
Qed.

(** C8.  The mapper throws its error exactly on the falsy inputs, [null] and
    [undefined] among them, and returns a DTO on every other input. *)
Theorem mapper_throws_iff_falsy (book : value) :
  (Updater.mapBookToBookResponseDTO book =
     Throw (Error "Book entity is required") <-> truthy book = false) /\
  ((exists e, Updater.mapBookToBookResponseDTO book = Throw e) <->
   truthy book = false) /\
  ((exists dto, Updater.mapBookToBookResponseDTO book = Ok dto) <->
   truthy book = true) /\
  (book = VNull \/ book = VUndefined \/ book = VBool false \/
   book = VNumber (Num 0) \/ book = VNumber NaN \/ book = VString "" <->
   truthy book = false).
Proof.
  unfold Updater.mapBookToBookResponseDTO.
  repeat split.
  - destruct (truthy book); [discriminate | reflexivity].
  - intros ->. reflexivity.
  - intros [e H]. destruct (truthy book); [discriminate | reflexivity].
  - intros ->. simpl. eauto.
  - intros [dto H]. destruct (truthy book); [reflexivity | discriminate].
  - intros ->. simpl. eauto.
  - intros [->|[->|[->|[->|[->| ->]]]]]; reflexivity.
  - destruct book as [| |b|n|s|l|o]; cbn [truthy]; try discriminate; auto.
    + intros ->. auto.
    + destruct n as [|z]; [auto 6|].
      intros H. apply negb_false_iff, Z.eqb_eq in H. subst. auto.
    + intros H. apply negb_false_iff, String.eqb_eq in H. subst. auto 6.
Qed.

(** ** The upsert *)

Lemma hasId_true key d :
  Updater.hasId key d = true <->
  Updater.externalId (Updater.gutenbergId (Updater.fields d)) = Some key.
Proof.
  unfold Updater.hasId.
  destruct (Updater.externalId _) as [k|].
  - rewrite Z.eqb_eq. split; congruence.
  - split; discriminate.
Qed.

Lemma hasId_updated key key' u dl :
  Updater.externalId (Updater.gutenbergId u) = Some key ->
  Updater.hasId key' (Updater.mkDocument u dl) = Z.eqb key key'.
Proof. unfold Updater.hasId. simpl. now intros ->. Qed.

(** Upserting twice under one identifier: the later update stands. *)
Lemma upsert_upsert key u1 u2 store :
  Updater.externalId (Updater.gutenbergId u1) = Some key ->
  Updater.upsert key u2 (Updater.upsert key u1 store) =
  Updater.upsert key u2 store.
Proof.
  intros K. induction store as [|d store IH]; simpl.
  - now rewrite (hasId_updated _ _ _ _ K), Z.eqb_refl.
  - destruct (Updater.hasId key d) eqn:E; simpl.
    + now rewrite (hasId_updated _ _ _ _ K), Z.eqb_refl.
    + now rewrite E, IH.
Qed.

Lemma in_ids_cons key d store :
  In key (Updater.ids (d :: store)) <->
  Updater.hasId key d = true \/ In key (Updater.ids store).
Proof.
  rewrite hasId_true. simpl.
  destruct (Updater.externalId _) as [k|]; simpl.
  - split; intros [H|H]; auto; left; congruence.
  - split; [auto | intros [H|H]; [discriminate | assumption]].
Qed.

(** The identifiers in the store after an upsert. *)
Lemma ids_upsert key u store :
  Updater.externalId (Updater.gutenbergId u) = Some key ->
  Updater.ids (Updater.upsert key u store) =
  if in_dec Z.eq_dec key (Updater.ids store) then Updater.ids store
  else (Updater.ids store ++ [key])%list.
Proof.
  intros K. induction store as [|d store IH].
  - simpl. now rewrite K.
  - cbn [Updater.upsert]. destruct (Updater.hasId key d) eqn:E.
    + apply hasId_true in E. cbn [Updater.ids Updater.fields]. rewrite K, E.
      destruct (in_dec Z.eq_dec key (key :: Updater.ids store)) as [|n];
        [reflexivity | exfalso; apply n; now left].
    + assert (N : Updater.externalId
                    (Updater.gutenbergId (Updater.fields d)) <> Some key).
      { intros X. apply hasId_true in X. congruence. }
      cbn [Updater.ids]. rewrite IH.
      destruct (Updater.externalId
                  (Updater.gutenbergId (Updater.fields d))) as [k|];
        [|reflexivity].
      destruct (in_dec Z.eq_dec key (Updater.ids store)) as [i|n];
        destruct (in_dec Z.eq_dec key (k :: Updater.ids store)) as [i'|n'].
      * reflexivity.
      * exfalso. apply n'. now right.
      * exfalso. destruct i' as [->|i']; [now apply N | now apply n].
      * reflexivity.
Qed.

Lemma in_ids_upsert key key' u store :
  Updater.externalId (Updater.gutenbergId u) = Some key ->
  In key' (Updater.ids (Updater.upsert key u store)) <->
  key' = key \/ In key' (Updater.ids store).
Proof.
  intros K. rewrite (ids_upsert _ _ _ K).
  destruct (in_dec Z.eq_dec key (Updater.ids store)) as [i|n].
  - split; [auto | intros [->|H]; assumption].
  - rewrite in_app_iff. simpl. split.
    + intros [H|[H|[]]]; auto.
    + intros [->|H]; auto.
Qed.

(** An upsert leaves the identifiers unique. *)
Lemma NoDup_ids_upsert key u store :
  Updater.externalId (Updater.gutenbergId u) = Some key ->
  NoDup (Updater.ids store) ->
  NoDup (Updater.ids (Updater.upsert key u store)).
Proof.
  intros K N. rewrite (ids_upsert _ _ _ K).
  destruct (in_dec Z.eq_dec key (Updater.ids store)) as [i|n];
    [assumption|].
  apply NoDup_app; [assumption | repeat constructor; intros [] |].
  intros x Hx [<-|[]]. now apply n.
Qed.

(** Upserts under different identifiers can be exchanged when one of the
    identifiers is in the store already. *)
Lemma upsert_exchange k1 u1 k2 u2 store :
  Updater.externalId (Updater.gutenbergId u1) = Some k1 ->
  Updater.externalId (Updater.gutenbergId u2) = Some k2 ->
  k1 <> k2 ->
  In k1 (Updater.ids store) ->
  Updater.upsert k1 u1 (Updater.upsert k2 u2 store) =
  Updater.upsert k2 u2 (Updater.upsert k1 u1 store).
Proof.
  intros K1 K2 D. induction store as [|d store IH]; intros I.
  - destruct I.
  - cbn [Updater.upsert].
    destruct (Updater.hasId k1 d) eqn:E1; destruct (Updater.hasId k2 d) eqn:E2.
    + apply hasId_true in E1, E2. congruence.
    + cbn [Updater.upsert]. rewrite E1, (hasId_updated _ _ _ _ K1).
      now rewrite (proj2 (Z.eqb_neq k1 k2) D).
    + cbn [Updater.upsert]. rewrite E2, (hasId_updated _ _ _ _ K2).
      assert (D' : k2 <> k1) by congruence.
      now rewrite (proj2 (Z.eqb_neq k2 k1) D').
    + cbn [Updater.upsert]. rewrite E1, E2. f_equal. apply IH.
      apply in_ids_cons in I as [I|I]; [congruence | assumption].
Qed.

(** After an upsert the store has a document with the identifier, and its
    mapped fields are those of the update. *)
Lemma upsert_stored key u store :
  Updater.externalId (Updater.gutenbergId u) = Some key ->
  exists doc,
    In doc (Updater.upsert key u store) /\
    Updater.hasId key doc = true /\ Updater.fields doc = u.
Proof.
  intros K. induction store as [|d store IH]; simpl.
  - eexists. split; [now left|]. split; [|reflexivity].
    now rewrite (hasId_updated _ _ _ _ K), Z.eqb_refl.
  - destruct (Updater.hasId key d) eqn:E.
    + eexists. split; [now left|]. split; [|reflexivity].
      now rewrite (hasId_updated _ _ _ _ K), Z.eqb_refl.
    + destruct IH as [doc [I H]]. exists doc. split; [now right | exact H].
Qed.

Lemma in_store_ids key doc store :
  In doc store -> Updater.hasId key doc = true -> In key (Updater.ids store).
Proof.
  induction store as [|d store IH]; intros I H; [destruct I|].
  apply in_ids_cons. destruct I as [->|I]; auto.
Qed.

(** When the identifiers are unique, every document with the identifier has
    the fields of the update: nothing of an earlier version is left. *)
Lemma upsert_replaces key u store :
  Updater.externalId (Updater.gutenbergId u) = Some key ->
  NoDup (Updater.ids store) ->
  forall doc,
    In doc (Updater.upsert key u store) ->
    Updater.hasId key doc = true -> Updater.fields doc = u.
Proof.
  intros K. induction store as [|d store IH]; intros N doc I H.
  - destruct I as [<-|[]]. reflexivity.
  - cbn [Updater.upsert] in I. destruct (Updater.hasId key d) eqn:E.
    + destruct I as [<-|I]; [reflexivity|]. exfalso.
      pose proof (in_store_ids _ _ _ I H) as X.
      apply hasId_true in E. cbn [Updater.ids] in N. rewrite E in N.
      inversion N; auto.
    + destruct I as [->|I]; [congruence|].
      apply IH; try assumption.
      cbn [Updater.ids] in N.
      destruct (Updater.externalId
                  (Updater.gutenbergId (Updater.fields d)));
        [now inversion N | assumption].
Qed.

(** *** A run as a sequence of upserts *)

Lemma upsertRecord_recordUpdate subdirectory xml store :
  Updater.upsertRecord subdirectory xml store =
  (u <- Updater.recordUpdate subdirectory xml ;;
   Ok (Updater.upsert (fst u) (snd u) store)).
Proof.
  unfold Updater.upsertRecord, Updater.recordUpdate,
    Updater.findOneAndUpdate.
  destruct (getBook subdirectory xml) as [book|e]; cbn [bind];
    [|reflexivity].
  destruct (Updater.mapBookToBookResponseDTO (bookValue book)) as [dto|e];
    cbn [bind]; [|reflexivity].
  now destruct (Updater.externalId (Updater.gutenbergId dto)).
Qed.

Lemma recordUpdate_keyed subdirectory xml u :
  Updater.recordUpdate subdirectory xml = Ok u -> Updater.keyed u.
Proof.
  unfold Updater.recordUpdate, Updater.keyed. intros H.
  apply bind_Ok in H as [book [_ H]]. apply bind_Ok in H as [dto [_ H]].
  destruct (Updater.externalId (Updater.gutenbergId dto)) eqn:E;
    [|discriminate].
  injection H as <-. exact E.
Qed.

Lemma updates_keyed tree : Forall Updater.keyed (fst (Updater.updates tree)).
Proof.
  induction tree as [|[subdirectory xml] tree IH]; simpl; [constructor|].
  destruct (negb (isNaN_Number subdirectory)); [|assumption].
  destruct (Updater.recordUpdate subdirectory xml) as [u|e] eqn:E; simpl.
  - constructor; [now apply recordUpdate_keyed in E | assumption].
  - constructor.
Qed.

Lemma upsertAll_updates tree : forall store,
  Updater.upsertAll tree store =
  (Updater.upserts (fst (Updater.updates tree)) store,
   snd (Updater.updates tree)).
Proof.
  induction tree as [|[subdirectory xml] tree IH]; intros store; simpl;
    [reflexivity|].
  destruct (negb (isNaN_Number subdirectory)); [|apply IH].
  rewrite upsertRecord_recordUpdate.
  destruct (Updater.recordUpdate subdirectory xml) as [u|e]; simpl;
    [apply IH | reflexivity].
Qed.

Lemma in_ids_upserts key us : forall store,
  Forall Updater.keyed us ->
  In key (Updater.ids store) ->
  In key (Updater.ids (Updater.upserts us store)).
Proof.
  induction us as [|[k u] us IH]; intros store F I; simpl; [assumption|].
  inversion F as [|? ? K F']; subst. unfold Updater.keyed in K.
  simpl in K. apply IH; [assumption|].
  apply (in_ids_upsert _ _ _ _ K). now right.
Qed.

Lemma NoDup_ids_upserts us : forall store,
  Forall Updater.keyed us ->
  NoDup (Updater.ids store) ->
  NoDup (Updater.ids (Updater.upserts us store)).
Proof.
  induction us as [|[k u] us IH]; intros store F N; simpl; [assumption|].
  inversion F as [|? ? K F']; subst. unfold Updater.keyed in K.
  simpl in K. apply IH; [assumption|].
  now apply NoDup_ids_upsert.
Qed.

(** An upsert whose identifier is in the store and is not upserted by the
    sequence can be moved behind the sequence. *)
Lemma upserts_exchange key u us : forall store,
  Forall Updater.keyed us ->
  Updater.externalId (Updater.gutenbergId u) = Some key ->
  ~ In key (map fst us) ->
  In key (Updater.ids store) ->
  Updater.upserts us (Updater.upsert key u store) =
  Updater.upsert key u (Updater.upserts us store).
Proof.
  induction us as [|[k u'] us IH]; intros store F K N I; simpl;
    [reflexivity|].
  inversion F as [|? ? K' F']; subst. unfold Updater.keyed in K'.
  simpl in K', N.
  rewrite <- IH; try assumption.
  - f_equal. symmetry. apply upsert_exchange; auto.
  - tauto.
  - apply (in_ids_upsert _ _ _ _ K'). now right.
Qed.

(** An upsert before the sequence makes no difference when the sequence
    upserts under the same identifier later, or when the store has the
    update already. *)
Lemma upserts_absorb key u us : forall store,
  Forall Updater.keyed us ->
  Updater.externalId (Updater.gutenbergId u) = Some key ->
  In key (Updater.ids store) ->
  In key (map fst us) \/ Updater.upsert key u store = store ->
  Updater.upserts us (Updater.upsert key u store) =
  Updater.upserts us store.
Proof.
  induction us as [|[k u'] us IH]; intros store F K I H; simpl.
  - destruct H as [[]|H]. exact H.
  - inversion F as [|? ? K' F']; subst. unfold Updater.keyed in K'.
    simpl in K'. destruct (Z.eq_dec k key) as [->|D].
    + now rewrite upsert_upsert.
    + rewrite <- (upsert_exchange key u k u') by auto.
      apply IH; try assumption.
      * apply (in_ids_upsert _ _ _ _ K'). now right.
      * destruct H as [[H|H]|H]; [simpl in H; congruence | now left |].
        right. rewrite (upsert_exchange key u k u') by auto. now rewrite H.
Qed.

(** Running a sequence of upserts a second time changes nothing. *)
Lemma upserts_idempotent us : forall store,
  Forall Updater.keyed us ->
  Updater.upserts us (Updater.upserts us store) = Updater.upserts us store.
Proof.
  induction us as [|[k u] us IH]; intros store F; [reflexivity|].
  inversion F as [|? ? K F']; subst. unfold Updater.keyed in K.
  simpl in K. cbn [Updater.upserts fold_left fst snd].
  fold (Updater.upserts us (Updater.upsert k u store)).
  set (s1 := Updater.upsert k u store).
  set (t := Updater.upserts us s1).
  fold (Updater.upserts us (Updater.upsert k u t)).
  assert (It : In k (Updater.ids t)).
  { apply in_ids_upserts; [assumption|].
    apply (in_ids_upsert _ _ _ _ K). now left. }
  rewrite upserts_absorb; try assumption; [now apply IH|].
  destruct (in_dec Z.eq_dec k (map fst us)) as [i|n]; [now left | right].
  unfold t. rewrite <- upserts_exchange; try assumption.
  - unfold s1. now rewrite upsert_upsert.
  - apply (in_ids_upsert _ _ _ _ K). now left.
Qed.

(** *** What a run stores *)

(** An upsert under another identifier neither adds, removes nor changes a
    document with the identifier. *)
Lemma upsert_other key k u store doc :
  Updater.externalId (Updater.gutenbergId u) = Some k ->
  k <> key ->
  (In doc (Updater.upsert k u store) /\ Updater.hasId key doc = true) <->
  (In doc store /\ Updater.hasId key doc = true).
Proof.
  intros K D.
  assert (X : forall dl,
             Updater.hasId key (Updater.mkDocument u dl) = true -> False).
  { intros dl H. rewrite (hasId_updated _ _ _ _ K) in H.
    now apply Z.eqb_eq in H. }
  induction store as [|d store IH]; cbn [Updater.upsert].
  - split; [|intros [[] _]]. intros [[<-|[]] H]. now apply X in H.
  - destruct (Updater.hasId k d) eqn:E.
    + split.
      * intros [[<-|I] H]; [now apply X in H|]. split; [now right | exact H].
      * intros [[<-|I] H]; [|split; [now right | exact H]].
        apply hasId_true in E, H. congruence.
    + split.
      * intros [[<-|I] H]; [split; [now left | exact H]|].
        destruct IH as [IH _]. destruct (IH (conj I H)) as [J _].
        split; [now right | exact H].
      * intros [[<-|I] H]; [split; [now left | exact H]|].
        destruct IH as [_ IH]. destruct (IH (conj I H)) as [J _].
        split; [now right | exact H].
Qed.

Lemma upserts_other key us : forall store doc,
  Forall Updater.keyed us ->
  ~ In key (map fst us) ->
  (In doc (Updater.upserts us store) /\ Updater.hasId key doc = true) <->
  (In doc store /\ Updater.hasId key doc = true).
Proof.
  induction us as [|[k u] us IH]; intros store doc F N; [reflexivity|].
  inversion F as [|? ? K F']; subst. unfold Updater.keyed in K.
  simpl in K, N. cbn [Updater.upserts fold_left fst snd].
  fold (Updater.upserts us (Updater.upsert k u store)).
  rewrite IH by tauto. apply upsert_other; [assumption | tauto].
Qed.

(** With unique identifiers, an identifier in the store has one document. *)
Lemma one_document_per_id key store :
  NoDup (Updater.ids store) -> In key (Updater.ids store) ->
  List.length (filter (Updater.hasId key) store) = 1%nat.
Proof.
  induction store as [|d store IH]; intros N I; [destruct I|].
  cbn [filter]. destruct (Updater.hasId key d) eqn:E.
  - apply hasId_true in E. cbn [Updater.ids] in N. rewrite E in N.
    inversion N as [|? ? Nk _]; subst.
    assert (F : filter (Updater.hasId key) store = []).
    { destruct (filter (Updater.hasId key) store) as [|x l] eqn:X;
        [reflexivity|].
      assert (J : In x (filter (Updater.hasId key) store))
        by (rewrite X; now left).
      apply filter_In in J as [J H]. exfalso. apply Nk.
      now apply (in_store_ids _ x). }
    now rewrite F.
  - apply IH.
    + cbn [Updater.ids] in N.
      destruct (Updater.externalId
                  (Updater.gutenbergId (Updater.fields d)));
        [now inversion N | assumption].
    + apply in_ids_cons in I as [I|I]; [congruence | assumption].
Qed.

(** What an iteration upserts, in terms of the parser and the mapper. *)
Lemma recordUpdate_Ok name xml key dto :
  Updater.recordUpdate name xml = Ok (key, dto) <->
  exists book,
    getBook name xml = Ok book /\ id book = Num key /\
    Updater.mapBookToBookResponseDTO (bookValue book) = Ok dto.
Proof.
  unfold Updater.recordUpdate. split.
  - intros H. apply bind_Ok in H as [book [Hb H]].
    apply bind_Ok in H as [d [Hd H]].
    pose proof Hd as Hd'. rewrite mapper_on_parsed_record in Hd'.
    injection Hd' as <-. cbn [Updater.gutenbergId Updater.externalId] in H.
    exists book. destruct (id book) as [|z]; [discriminate|].
    injection H as <- <-. auto.
  - intros (book & Hb & Hi & Hd). rewrite Hb. cbn [bind]. rewrite Hd.
    cbn [bind]. rewrite mapper_on_parsed_record in Hd. injection Hd as <-.
    cbn [Updater.gutenbergId Updater.externalId]. now rewrite Hi.
Qed.

Lemma recordUpdate_returns name xml :
  (exists u, Updater.recordUpdate name xml = Ok u) <->
  exists book key, getBook name xml = Ok book /\ id book = Num key.
Proof.
  split.
  - intros [[key dto] H]. apply recordUpdate_Ok in H as (book & Hb & Hi & _).
    eauto.
  - intros (book & key & Hb & Hi). eexists (key, _).
    apply recordUpdate_Ok. exists book.
    split; [assumption|]. split; [assumption|].
    apply mapper_on_parsed_record.
Qed.

(** A run throws nothing exactly when every numeric subdirectory is parsed
    and has an integer identifier. *)
Lemma updates_succeed tree :
  snd (Updater.updates tree) = None <->
  forall name xml, In (name, xml) tree -> isNaN_Number name = false ->
    exists u, Updater.recordUpdate name xml = Ok u.
Proof.
  induction tree as [|[name xml] tree IH]; cbn [Updater.updates].
  - split; [intros _ ? ? [] | reflexivity].
  - destruct (isNaN_Number name) eqn:N; cbn [negb].
    + rewrite IH. split.
      * intros H n x [E|I] Hn; [|now apply H].
        injection E as <- <-. congruence.
      * intros H n x I. apply H. now right.
    + destruct (Updater.recordUpdate name xml) as [u|e] eqn:R; cbn [snd].
      * rewrite IH. split.
        -- intros H n x [E|I] Hn; [|now apply H].
           injection E as <- <-. eauto.
        -- intros H n x I. apply H. now right.
      * split; [discriminate|]. intros H.
        destruct (H name xml (or_introl eq_refl) N) as [u Hu]. congruence.
Qed.

Lemma updates_app t1 : forall t2,
  snd (Updater.updates (t1 ++ t2)%list) = None ->
  snd (Updater.updates t1) = None /\
  snd (Updater.updates t2) = None /\
  fst (Updater.updates (t1 ++ t2)%list) =
  (fst (Updater.updates t1) ++ fst (Updater.updates t2))%list.
Proof.
  induction t1 as [|[name xml] t1 IH]; intros t2 H;
    cbn [app Updater.updates] in *; [auto|].
  destruct (negb (isNaN_Number name)); [|now apply IH].
  destruct (Updater.recordUpdate name xml) as [u|e]; cbn [fst snd] in *;
    [|discriminate].
  destruct (IH t2 H) as (H1 & H2 & H3). rewrite H3. auto.
Qed.

Lemma updates_from_tree tree u :
  In u (fst (Updater.updates tree)) ->
  exists name xml,
    In (name, xml) tree /\ isNaN_Number name = false /\
    Updater.recordUpdate name xml = Ok u.
Proof.
  induction tree as [|[name xml] tree IH]; cbn [Updater.updates];
    [intros []|].
  destruct (isNaN_Number name) eqn:N; cbn [negb].
  - intros I. destruct (IH I) as (n & x & J & H). exists n, x.
    split; [now right | exact H].
  - destruct (Updater.recordUpdate name xml) as [v|e] eqn:R; cbn [fst];
      [|intros []].
    intros [<-|I].
    + exists name, xml. split; [now left | auto].
    + destruct (IH I) as (n & x & J & H). exists n, x.
      split; [now right | exact H].
Qed.

(** After a run that threw nothing, the record of a subdirectory that no
    later subdirectory shares its identifier with is in the store, with
    exactly its mapped fields. *)
Lemma run_stores tree store pre name xml post book key :
  tree = (pre ++ (name, xml) :: post)%list ->
  snd (Updater.upsertAll tree store) = None ->
  isNaN_Number name = false ->
  getBook name xml = Ok book ->
  id book = Num key ->
  (forall name' xml' book',
     In (name', xml') post -> isNaN_Number name' = false ->
     getBook name' xml' = Ok book' -> id book' <> Num key) ->
  exists dto,
    Updater.mapBookToBookResponseDTO (bookValue book) = Ok dto /\
    (exists doc,
       In doc (fst (Updater.upsertAll tree store)) /\
       Updater.hasId key doc = true /\ Updater.fields doc = dto) /\
    In key (Updater.ids (fst (Updater.upsertAll tree store))) /\
    (NoDup (Updater.ids store) ->
     (forall doc,
        In doc (fst (Updater.upsertAll tree store)) ->
        Updater.hasId key doc = true -> Updater.fields doc = dto) /\
     List.length
       (filter (Updater.hasId key) (fst (Updater.upsertAll tree store)))
     = 1%nat).
Proof.
  intros -> S N Hb Hi Hpost.
  rewrite upsertAll_updates in *. cbn [fst snd] in *.
  apply updates_app in S as (S1 & S2 & ->).
  cbn [Updater.updates] in S2 |- *. rewrite N in *. cbn [negb] in *.
  destruct (recordUpdate_returns name xml) as [_ R].
  destruct (R (ex_intro _ book (ex_intro _ key (conj Hb Hi))))
    as [[k dto] Hu].
  pose proof Hu as Hu'.
  apply recordUpdate_Ok in Hu' as (book' & Hb' & Hi' & Hd).
  assert (book' = book) by congruence. subst book'.
  assert (k = key) by congruence. subst k.
  pose proof (recordUpdate_keyed _ _ _ Hu) as K.
  unfold Updater.keyed in K. cbn [fst snd] in K.
  rewrite Hu in *. cbn [fst snd] in *.
  unfold Updater.upserts. rewrite fold_left_app. cbn [fold_left fst snd].
  fold (Updater.upserts (fst (Updater.updates pre)) store).
  set (mid := Updater.upserts (fst (Updater.updates pre)) store).
  fold (Updater.upserts (fst (Updater.updates post))
          (Updater.upsert key dto mid)).
  assert (Fpost : Forall Updater.keyed (fst (Updater.updates post)))
    by apply updates_keyed.
  assert (Npost : ~ In key (map fst (fst (Updater.updates post)))).
  { intros I. apply in_map_iff in I as ([k u] & E & I). simpl in E. subst k.
    apply updates_from_tree in I as (n & x & J & Hn & Hr).
    apply recordUpdate_Ok in Hr as (b & Hgb & Hib & _).
    now apply (Hpost n x b). }
  destruct (upsert_stored key dto mid K) as (doc & I & H & F).
  assert (J : In doc (Updater.upserts (fst (Updater.updates post))
                        (Updater.upsert key dto mid))
              /\ Updater.hasId key doc = true)
    by (apply upserts_other; auto).
  exists dto. split; [assumption|]. split; [exists doc; tauto|].
  split; [apply (in_store_ids _ doc); tauto|].
  intros D.
  assert (Dmid : NoDup (Updater.ids mid))
    by (apply NoDup_ids_upserts; [apply updates_keyed | assumption]).
  split.
  - intros d Id Hd'.
    assert (X : In d (Updater.upsert key dto mid)
                /\ Updater.hasId key d = true)
      by (apply (upserts_other key (fst (Updater.updates post))); auto).
    apply (upsert_replaces key dto mid K Dmid); tauto.
  - apply one_document_per_id; [|apply (in_store_ids _ doc); tauto].
    apply NoDup_ids_upserts; [assumption|]. now apply NoDup_ids_upsert.
Qed.

(** C9.  A second run of the loop over an unchanged tree leaves the store,
    and the outcome, of the first run; the same holds for a single
    iteration.  The store keeps one document per external identifier when it
    had one before, and after an iteration every document with the
    identifier of the record has exactly the mapped fields of the record.
    An iteration on a parsed record with an integer identifier does upsert;
    a run throws nothing exactly when every numeric subdirectory is parsed
    and has an integer identifier; and after such a run the record of a
    subdirectory to which no later one gives the same identifier is in the
    store, as one document when the identifiers were unique, with exactly
    its mapped fields. *)
Theorem upsert_idempotent
  (tree : list (string * option node)) (store : Updater.Store) :
  Updater.upsertAll tree (fst (Updater.upsertAll tree store)) =
  Updater.upsertAll tree store /\
  (NoDup (Updater.ids store) ->
   NoDup (Updater.ids (fst (Updater.upsertAll tree store)))) /\
  (forall subdirectory xml store1,
     Updater.upsertRecord subdirectory xml store = Ok store1 ->
     Updater.upsertRecord subdirectory xml store1 = Ok store1 /\
     exists book dto key,
       getBook subdirectory xml = Ok book /\
       Updater.mapBookToBookResponseDTO (bookValue book) = Ok dto /\
       Updater.externalId (Updater.gutenbergId dto) = Some key /\
       store1 = Updater.upsert key dto store /\
       (exists doc, In doc store1 /\ Updater.hasId key doc = true /\
                    Updater.fields doc = dto) /\
       (NoDup (Updater.ids store) ->
        NoDup (Updater.ids store1) /\
        forall doc, In doc store1 -> Updater.hasId key doc = true ->
                    Updater.fields doc = dto)) /\
  (forall subdirectory xml book key,
     getBook subdirectory xml = Ok book -> id book = Num key ->
     exists dto,
       Updater.mapBookToBookResponseDTO (bookValue book) = Ok dto /\
       Updater.gutenbergId dto = VNumber (Num key) /\
       Updater.upsertRecord subdirectory xml store =
       Ok (Updater.upsert key dto store)) /\
  (snd (Updater.upsertAll tree store) = None <->
   forall name xml, In (name, xml) tree -> isNaN_Number name = false ->
     exists book key, getBook name xml = Ok book /\ id book = Num key) /\
  (forall pre name xml post book key,
     tree = (pre ++ (name, xml) :: post)%list ->
     snd (Updater.upsertAll tree store) = None ->
     isNaN_Number name = false ->
     getBook name xml = Ok book ->
     id book = Num key ->
     (forall name' xml' book',
        In (name', xml') post -> isNaN_Number name' = false ->
        getBook name' xml' = Ok book' -> id book' <> Num key) ->
     exists dto,
       Updater.mapBookToBookResponseDTO (bookValue book) = Ok dto /\
       (exists doc,
          In doc (fst (Updater.upsertAll tree store)) /\
          Updater.hasId key doc = true /\ Updater.fields doc = dto) /\
       In key (Updater.ids (fst (Updater.upsertAll tree store))) /\
       (NoDup (Updater.ids store) ->
        (forall doc,
           In doc (fst (Updater.upsertAll tree store)) ->
           Updater.hasId key doc = true -> Updater.fields doc = dto) /\
        List.length
          (filter (Updater.hasId key) (fst (Updater.upsertAll tree store)))
        = 1%nat)).
Proof.
  split; [|split; [|split; [|split; [|split]]]].
  - rewrite !upsertAll_updates. cbn [fst snd]. f_equal.
    apply upserts_idempotent, updates_keyed.
  - intros N. rewrite upsertAll_updates. cbn [fst].
    apply NoDup_ids_upserts; [apply updates_keyed | assumption].
  - intros subdirectory xml store1 H.
    assert (H' := H). unfold Updater.upsertRecord in H'.
    apply bind_Ok in H' as [book [Hb H']].
    apply bind_Ok in H' as [dto [Hd H']].
    unfold Updater.findOneAndUpdate in H'.
    destruct (Updater.externalId (Updater.gutenbergId dto)) as [key|] eqn:K;
      [|discriminate].
    injection H' as <-. split.
    + unfold Updater.upsertRecord. rewrite Hb. cbn [bind]. rewrite Hd.
      cbn [bind]. unfold Updater.findOneAndUpdate. rewrite K.
      now rewrite upsert_upsert.
    + exists book, dto, key. repeat split; try assumption.
      * now apply upsert_stored.
      * now apply NoDup_ids_upsert.
      * now apply upsert_replaces.
  - intros subdirectory xml book key Hb Hi.
    eexists. split; [apply mapper_on_parsed_record|].
    cbn [Updater.gutenbergId]. rewrite Hi. split; [reflexivity|].
    unfold Updater.upsertRecord. rewrite Hb. cbn [bind].
    rewrite mapper_on_parsed_record. cbn [bind Updater.gutenbergId].
    unfold Updater.findOneAndUpdate. now rewrite Hi.
  - rewrite upsertAll_updates. cbn [snd]. rewrite updates_succeed.
    split; intros H name xml I N; apply recordUpdate_returns; now apply H.
  - intros pre name xml post book key. apply run_stores.
Qed.

(** On [sampleTree] and an empty store: the run throws nothing and leaves
    two documents; the record of the last subdirectory, ["011"], is the one
    document with the identifier 11, and its fields are those mapped from
    [threeSubjects], the record of ["11"] being replaced. *)
Lemma upsert_idempotent_witness :
  snd (Updater.upsertAll Updater.sampleTree []) = None /\
  map (fun d => Updater.gutenbergId (Updater.fields d))
    (fst (Updater.upsertAll Updater.sampleTree []))
  = [VNumber (Num 11); VNumber (Num 12)] /\
  exists book dto,
    getBook "011" (Some threeSubjects) = Ok book /\
    Updater.mapBookToBookResponseDTO (bookValue book) = Ok dto /\
    Updater.subjects dto = VArray [VString "Apples"; VString "Zebras"] /\
    Updater.upsertRecord "011" (Some threeSubjects) [] =
      Ok [Updater.mkDocument dto VUndefined] /\
    (exists doc,
       In doc (fst (Updater.upsertAll Updater.sampleTree [])) /\
       Updater.hasId 11 doc = true /\ Updater.fields doc = dto) /\
    (forall doc,
       In doc (fst (Updater.upsertAll Updater.sampleTree [])) ->
       Updater.hasId 11 doc = true -> Updater.fields doc = dto) /\
    List.length
      (filter (Updater.hasId 11)
         (fst (Updater.upsertAll Updater.sampleTree []))) = 1%nat.
Proof.
  split; [reflexivity|]. split; [reflexivity|].
  destruct (upsert_idempotent Updater.sampleTree [])
    as (_ & _ & _ & Hrecord & _ & Hrun).
  pose (book := mkBook (Num 11) None [] [] "Text"
                  [Some "Apples"; Some "Zebras"] [] [] [] (Some false)).
  assert (Hb : getBook "011" (Some threeSubjects) = Ok book) by reflexivity.
  assert (Hpost : forall name' xml' book',
             In (name', xml') (@nil (string * option node)) ->
             isNaN_Number name' = false ->
             getBook name' xml' = Ok book' -> id book' <> Num 11)
    by (intros name' xml' book' []).
  destruct (Hrun [("11", Some wonderland); ("README", None);
                  ("12", Some twoHtmlFiles)]
              "011" (Some threeSubjects) [] book 11%Z
              eq_refl eq_refl eq_refl Hb eq_refl Hpost)
    as (dto & Hd & Hdoc & _ & Hall).
  destruct (Hrecord "011" (Some threeSubjects) book 11%Z Hb eq_refl)
    as (dto' & Hd' & _ & Hrec).
  assert (dto' = dto) by congruence. subst dto'.
  destruct (Hall (NoDup_nil _)) as [Hfields Hone].
  exists book, dto. split; [exact Hb|]. split; [exact Hd|].
  split; [rewrite mapper_on_parsed_record in Hd; injection Hd as <-;
          reflexivity|].
  split; [exact Hrec|]. split; [exact Hdoc|]. split; assumption.
Defined.

(** A run over [sampleTree] from an empty store: three upserts, the last
    under the identifier of the first, and two documents. *)
Example upsertAll_sampleTree :
  Updater.ids (fst (Updater.upsertAll Updater.sampleTree [])) = [11; 12]%Z /\
  snd (Updater.upsertAll Updater.sampleTree []) = None /\
  map fst (fst (Updater.updates Updater.sampleTree)) = [11; 12; 11]%Z.
Proof. repeat split. Qed.

(** * Further properties of the code *)

(** ** [fixSubtitles] on every title *)

(** X1.  Whatever the title, the result of [fixSubtitles] contains no line
    feed and no carriage return. *)
Theorem fixSubtitles_no_line_break title :
  has_break (fixSubtitles title) = false.
Proof.
  unfold fixSubtitles. now apply replace_removes_breaks.
Qed.

Lemma fixSubtitles_without_breaks_aux title :
  has_break title = false -> fixSubtitles title = title.
Proof.
  intros H. unfold fixSubtitles. cbv zeta.
  rewrite (replace_no_break ": " title H). now apply replace_no_break.
Qed.

(** X2.  A title without line breaks is returned as it is, blanks
    included. *)
Theorem fixSubtitles_without_breaks title :
  has_break title = false -> fixSubtitles title = title.
Proof. apply fixSubtitles_without_breaks_aux. Qed.

Lemma fixSubtitles_without_breaks_witness :
  has_break "Through the  Looking-Glass " = false /\
  fixSubtitles "Through the  Looking-Glass " = "Through the  Looking-Glass ".
Proof.
  split; [reflexivity|].
  apply (fixSubtitles_without_breaks "Through the  Looking-Glass ").
  reflexivity.
Defined.

(** X3.  Normalising a title twice gives what normalising it once gives. *)
Theorem fixSubtitles_idempotent title :
  fixSubtitles (fixSubtitles title) = fixSubtitles title.
Proof.
  apply fixSubtitles_without_breaks_aux.
  unfold fixSubtitles. now apply replace_removes_breaks.
Qed.

(** *** One run of line breaks *)

Lemma skip_all p x y : every p x = true -> skip p (x ++ y) = skip p y.
Proof.
  induction x as [|c x IH]; simpl; [reflexivity|].
  intros H. apply andb_true_iff in H as [-> H]. now apply IH.
Qed.

Lemma blank_not_break c : is_blank c = true -> is_break c = false.
Proof.
  unfold is_blank, is_break. intros H.
  apply orb_true_iff in H as [H|H]; apply Ascii.eqb_eq in H; subst;
    reflexivity.
Qed.

Lemma break_not_blank c : is_break c = true -> is_blank c = false.
Proof.
  intros H. destruct (is_blank c) eqn:B; [|reflexivity].
  apply blank_not_break in B. congruence.
Qed.

Lemma skip_clean p s :
  (forall c t, s = String c t -> p c = false) -> skip p s = s.
Proof.
  destruct s as [|c t]; intros H; simpl; [reflexivity|].
  now rewrite (H c t eq_refl).
Qed.

(** At a run of line breaks with the blanks around it, the pattern matches
    the whole run. *)
Lemma match_run bl1 brk bl2 b :
  every is_blank bl1 = true ->
  every is_break brk = true -> brk <> "" ->
  every is_blank bl2 = true ->
  startsWithSeparator b = false ->
  match_LINE_BREAK_PATTERN (bl1 ++ brk ++ bl2 ++ b) = Some b.
Proof.
  intros H1 H2 N H3 Hb. unfold match_LINE_BREAK_PATTERN.
  rewrite (skip_all _ _ _ H1).
  destruct brk as [|c brk]; [congruence|]. simpl in H2.
  apply andb_true_iff in H2 as [Hc H2].
  cbn [append skip]. rewrite (break_not_blank _ Hc), Hc.
  rewrite (skip_all _ _ _ H2). f_equal.
  assert (E : skip is_break (bl2 ++ b) = bl2 ++ b).
  { apply skip_clean. intros d t E.
    destruct bl2 as [|e bl2]; simpl in E.
    - subst b. simpl in Hb. now apply orb_false_iff in Hb.
    - injection E as -> _. simpl in H3.
      apply andb_true_iff in H3 as [H3 _]. now apply blank_not_break. }
  rewrite E, (skip_all _ _ _ H3). apply skip_clean.
  intros d t ->. simpl in Hb. now apply orb_false_iff in Hb.
Qed.

(** Inside a text without line breaks that does not end with a blank, the
    pattern matches nowhere, whatever follows the text. *)
Lemma skip_blank_inside a rest :
  has_break a = false -> endsWithBlank a = false -> a <> "" ->
  exists d t, skip is_blank (a ++ rest) = String d t /\ is_break d = false.
Proof.
  induction a as [|c a IH]; intros B E N; [congruence|].
  unfold has_break in B. cbn [existsb] in B.
  apply orb_false_iff in B as [Bc B].
  cbn [append skip]. destruct (is_blank c) eqn:K.
  - destruct a as [|d a]; [simpl in E; congruence|].
    apply IH; [exact B | exact E | discriminate].
  - eauto.
Qed.

Lemma match_inside a rest :
  has_break a = false -> endsWithBlank a = false -> a <> "" ->
  match_LINE_BREAK_PATTERN (a ++ rest) = None.
Proof.
  intros B E N. unfold match_LINE_BREAK_PATTERN.
  destruct (skip_blank_inside a rest B E N) as (d & t & -> & Hd).
  now rewrite Hd.
Qed.

Lemma replace_run rep a bl1 brk bl2 b :
  has_break a = false -> endsWithBlank a = false ->
  every is_blank bl1 = true ->
  every is_break brk = true -> brk <> "" ->
  every is_blank bl2 = true ->
  startsWithSeparator b = false ->
  replace_LINE_BREAK_PATTERN rep (a ++ bl1 ++ brk ++ bl2 ++ b) =
  a ++ rep ++ replace_LINE_BREAK_PATTERN rep b.
Proof.
  intros B E H1 H2 N H3 Hb. induction a as [|c a IH].
  - cbn [append]. apply replace_match. now apply match_run.
  - cbn [append]. rewrite replace_nomatch.
    + f_equal. apply IH.
      * unfold has_break in *. cbn [existsb] in B.
        now apply orb_false_iff in B.
      * destruct a; [reflexivity | exact E].
    + apply (match_inside (String c a)); [assumption | assumption |].
      discriminate.
Qed.

(** X4.  A run of line breaks with the blanks around it, after a text
    without line breaks that does not end with a blank and before a text that
    starts with neither, is replaced by [": "], and the rest of the title is
    normalised in the same way. *)
Theorem fixSubtitles_run a bl1 brk bl2 b :
  has_break a = false -> endsWithBlank a = false ->
  every is_blank bl1 = true ->
  every is_break brk = true -> brk <> "" ->
  every is_blank bl2 = true ->
  startsWithSeparator b = false ->
  fixSubtitles (a ++ bl1 ++ brk ++ bl2 ++ b) = a ++ ": " ++ fixSubtitles b.
Proof.
  intros. rewrite !fixSubtitles_single_pass. now apply replace_run.
Qed.

Lemma fixSubtitles_run_witness :
  fixSubtitles ("The Hunting" ++ " " ++ String CR (String LF "") ++ "  "
                ++ "of the Snark")
  = "The Hunting" ++ ": " ++ fixSubtitles "of the Snark".
Proof.
  apply (fixSubtitles_run "The Hunting" " " (String CR (String LF "")) "  "
           "of the Snark"); try reflexivity.
  discriminate.
Defined.

(** ** The fields of a returned record *)

Lemma fold_addPerson l : forall acc,
  fold_left addPerson l acc = (acc ++ present (map personOf l))%list.
Proof.
  induction l as [|el l IH]; intros acc; simpl.
  - now rewrite app_nil_r.
  - rewrite IH. unfold addPerson, personOf, yearOf.
    destruct (item0 (getElementsByTagNameNS el NAMESPACES.pg "name"));
      simpl; [|reflexivity].
    rewrite <- app_assoc. simpl. repeat f_equal;
      match goal with |- context [item0 ?x] => now destruct (item0 x) end.
Qed.

Lemma present_length {A} (l : list (option A)) :
  (List.length (present l) <= List.length l)%nat.
Proof.
  induction l as [|[a|] l IH]; simpl; lia.
Qed.

(** X5.  In a returned record, [authors] has one entry for every creator
    element that has a name, in document order, with the years [parseInt]
    reads from the birth and death dates, [null] standing for an absent
    date; a creator element without a name gives no entry.  The same holds
    of [translators] and the translator elements. *)
Theorem people_with_a_name id root r :
  getBook id (Some root) = Ok r ->
  exists book,
    ebook root = Some book /\
    authors r = present (map personOf (creatorElements book)) /\
    translators r = present (map personOf (translatorElements book)) /\
    (List.length (authors r) <= List.length (creatorElements book))%nat /\
    (List.length (translators r)
     <= List.length (translatorElements book))%nat.
Proof.
  intros H.
  apply getBook_Ok_inv in H
    as (book & rights & fmts & typeEl & langs & Hb & _ & _ & _ & _ & ->).
  exists book. simpl. rewrite !fold_addPerson. simpl.
  repeat split; try assumption.
  - unfold creatorElements. rewrite <- (length_map personOf).
    apply present_length.
  - unfold translatorElements. rewrite <- (length_map personOf).
    apply present_length.
Qed.

Lemma people_with_a_name_witness :
  exists r,
    getBook "620" (Some manyParts) = Ok r /\
    authors r = [mkPerson (Some (Num 1832)) (Some (Num 1898))
                   "Carroll, Lewis"] /\
    translators r = [mkPerson (Some (Num (-620))) None "Aesop"] /\
    exists book,
      ebook manyParts = Some book /\
      authors r = present (map personOf (creatorElements book)) /\
      translators r = present (map personOf (translatorElements book)) /\
      (List.length (authors r) <= List.length (creatorElements book))%nat /\
      (List.length (translators r)
       <= List.length (translatorElements book))%nat.
Proof.
  eexists. split; [reflexivity|]. split; [reflexivity|].
  split; [reflexivity|].
  apply (people_with_a_name "620" manyParts). reflexivity.
Defined.

Lemma forEach_addLanguage l : forall acc out,
  forEach addLanguage l acc = Ok out ->
  map Some out =
  (map Some acc ++ map (fun el => option_map textContent (valueElement el)) l)
  %list.
Proof.
  induction l as [|el l IH]; intros acc out H; simpl in H.
  - injection H as <-. simpl. now rewrite app_nil_r.
  - apply bind_Ok in H as [acc' [H1 H2]]. apply IH in H2. rewrite H2.
    unfold addLanguage in H1. apply bind_Ok in H1 as [v [Hv H1]].
    apply deref_Ok in Hv. injection H1 as <-.
    unfold valueElement. rewrite map_app. simpl. rewrite Hv. simpl.
    now rewrite <- app_assoc.
Qed.

(** X6.  In a returned record, [languages] has the value of every language
    element, in document order: one entry per element, a language that
    occurs twice being listed twice. *)
Theorem languages_in_document_order id root r :
  getBook id (Some root) = Ok r ->
  exists book,
    ebook root = Some book /\
    map Some (languages r) =
    map (fun el => option_map textContent (valueElement el))
      (languageElements book) /\
    List.length (languages r) = List.length (languageElements book).
Proof.
  intros H.
  apply getBook_Ok_inv in H
    as (book & rights & fmts & typeEl & langs & Hb & _ & _ & _ & Hl & ->).
  exists book. simpl. apply forEach_addLanguage in Hl. simpl in Hl.
  repeat split; try assumption.
  rewrite <- (length_map Some langs), Hl. apply length_map.
Qed.

Lemma languages_in_document_order_witness :
  exists r,
    getBook "620" (Some manyParts) = Ok r /\
    languages r = ["en"; "fr"; "en"] /\
    exists book,
      ebook manyParts = Some book /\
      map Some (languages r) =
      map (fun el => option_map textContent (valueElement el))
        (languageElements book) /\
      List.length (languages r) = List.length (languageElements book).
Proof.
  eexists. split; [reflexivity|]. split; [reflexivity|].
  apply (languages_in_document_order "620" manyParts). reflexivity.
Defined.

Lemma fold_addBookshelf l : forall acc,
  fold_left addBookshelf l acc =
  (acc ++ present
            (map (fun el => option_map textContent (valueElement el)) l))%list.
Proof.
  induction l as [|el l IH]; intros acc; simpl.
  - now rewrite app_nil_r.
  - rewrite IH. unfold addBookshelf, valueElement.
    destruct (item0 (getElementsByTagNameNS el NAMESPACES.rdf "value"));
      simpl; [|reflexivity].
    now rewrite <- app_assoc.
Qed.

(** X7.  In a returned record, [bookshelves] has the value of every
    bookshelf element that has one, in document order; a bookshelf element
    without a value gives no entry. *)
Theorem bookshelves_in_document_order id root r :
  getBook id (Some root) = Ok r ->
  exists book,
    ebook root = Some book /\
    bookshelves r =
    present (map (fun el => option_map textContent (valueElement el))
               (bookshelfElements book)).
Proof.
  intros H.
  apply getBook_Ok_inv in H
    as (book & rights & fmts & typeEl & langs & Hb & _ & _ & _ & _ & ->).
  exists book. simpl. rewrite fold_addBookshelf. auto.
Qed.

Lemma bookshelves_in_document_order_witness :
  exists r,
    getBook "620" (Some manyParts) = Ok r /\
    bookshelves r = ["Fantasy"; "Children's Fiction"] /\
    exists book,
      ebook manyParts = Some book /\
      bookshelves r =
      present (map (fun el => option_map textContent (valueElement el))
                 (bookshelfElements book)).
Proof.
  eexists. split; [reflexivity|]. split; [reflexivity|].
  apply (bookshelves_in_document_order "620" manyParts). reflexivity.
Defined.

(** X8.  In a returned record, [title] is [null] exactly when the work has
    no title element; otherwise it is the normalised text of the first
    title element, and it contains no line break. *)
Theorem title_of_returned_record id root r :
  getBook id (Some root) = Ok r ->
  exists book,
    ebook root = Some book /\
    (title r = None <-> titleElement book = None) /\
    (forall t, title r = Some t ->
       has_break t = false /\
       exists el, titleElement book = Some el /\
                  t = fixSubtitles (textContent el)).
Proof.
  intros H.
  apply getBook_Ok_inv in H
    as (book & rights & fmts & typeEl & langs & Hb & _ & _ & _ & _ & ->).
  exists book. simpl. unfold titleElement.
  destruct (item0 (getElementsByTagNameNS book NAMESPACES.dc "title"))
    as [el|]; simpl.
  - repeat split; try assumption; try discriminate.
    + injection H as <-. unfold fixSubtitles.
      now apply replace_removes_breaks.
    + injection H as <-. eauto.
  - repeat split; try assumption; discriminate.
Qed.

Lemma title_of_returned_record_witness :
  exists r,
    getBook "620" (Some manyParts) = Ok r /\
    title r = Some "Sylvie and Bruno: Concluded" /\
    exists book,
      ebook manyParts = Some book /\
      (title r = None <-> titleElement book = None) /\
      (forall t, title r = Some t ->
         has_break t = false /\
         exists el, titleElement book = Some el /\
                    t = fixSubtitles (textContent el)).
Proof.
  eexists. split; [reflexivity|]. split; [reflexivity|].
  apply (title_of_returned_record "620" manyParts). reflexivity.
Defined.

(** X9.  In a returned record, [type] is the text of the first value
    element below the first type element of the work, and ["Text"] when that
    type element has no value element. *)
Theorem type_of_returned_record id root r :
  getBook id (Some root) = Ok r ->
  exists book,
    ebook root = Some book /\
    type r = match classificationValue book with
             | Some v => v
             | None => "Text"
             end.
Proof. apply getBook_type. Qed.

Lemma type_of_returned_record_witness :
  exists r,
    getBook "11" (Some emptyType) = Ok r /\
    type r = "Text" /\
    exists book,
      ebook emptyType = Some book /\
      type r = match classificationValue book with
               | Some v => v
               | None => "Text"
               end.
Proof.
  eexists. split; [reflexivity|]. split; [reflexivity|].
  apply (type_of_returned_record "11" emptyType). reflexivity.
Defined.

(** ** The outcomes of [getBook] *)

Lemma bind_Throw {A B} (m : result A) (k : A -> result B) e :
  bind m k = Throw e ->
  m = Throw e \/ exists a, m = Ok a /\ k a = Throw e.
Proof.
  destruct m as [a|e']; simpl; [eauto|]. intros H. left. congruence.
Qed.

Lemma deref_Throw {A} (x : option A) e : deref x = Throw e -> isTypeError e.
Proof.
  destruct x; simpl; [discriminate|]. intros H. injection H as <-.
  eexists. reflexivity.
Qed.

Lemma forEach_Throw {A S} (f : S -> A -> result S) (P : exn -> Prop) :
  (forall s a e, f s a = Throw e -> P e) ->
  forall l s e, forEach f l s = Throw e -> P e.
Proof.
  intros Hf. induction l as [|a l IH]; intros s e H; simpl in H.
  - discriminate.
  - apply bind_Throw in H as [H|[s' [_ H]]]; eauto.
Qed.

Lemma addFormat_Throw formats file e :
  addFormat formats file = Throw e -> isTypeError e.
Proof.
  unfold addFormat. intros H. apply bind_Throw in H as [H|[format [_ H]]].
  - now apply deref_Throw in H.
  - destruct (item0 (getElementsByTagNameNS format NAMESPACES.rdf "value"));
      [|discriminate].
    match type of H with (if ?b then _ else _) = _ => destruct b end;
      discriminate.
Qed.

Lemma addLanguage_Throw languages language e :
  addLanguage languages language = Throw e -> isTypeError e.
Proof.
  unfold addLanguage. intros H. apply bind_Throw in H as [H|[v [_ H]]].
  - now apply deref_Throw in H.
  - discriminate.
Qed.

(** X10.  On a parsed document with the document element [root], [getBook]
    returns a record exactly when the document has a work element with a
    rights element and a type element, in which every file element has a
    format element and every language element a value element; on every
    other such document it throws a [TypeError]. *)
Theorem getBook_outcome id root :
  ((exists r, getBook id (Some root) = Ok r) <->
   exists book,
     ebook root = Some book /\
     rightsElement book <> None /\
     Forall (fun file => formatElement file <> None) (fileElements book) /\
     typeElement book <> None /\
     Forall (fun l => valueElement l <> None) (languageElements book)) /\
  (forall e, getBook id (Some root) = Throw e -> isTypeError e).
Proof.
  split; [apply getBook_returns_iff|].
  intros e H. unfold getBook in H.
  apply bind_Throw in H as [H|[book [_ H]]]; [now apply deref_Throw in H|].
  apply bind_Throw in H as [H|[rights [_ H]]]; [now apply deref_Throw in H|].
  apply bind_Throw in H as [H|[fmts [_ H]]].
  { revert H. apply forEach_Throw. apply addFormat_Throw. }
  apply bind_Throw in H as [H|[typeEl [_ H]]]; [now apply deref_Throw in H|].
  apply bind_Throw in H as [H|[langs [_ H]]]; [|discriminate].
  revert H. apply forEach_Throw. apply addLanguage_Throw.
Qed.

(** ** The formats of a returned record *)

Lemma collected_grows files acc out :
  collected files acc out -> forall f, In f acc -> In f out.
Proof.
  induction 1 as [acc|file files acc out ct E K _ IH|file files acc out N _ IH];
    intros f I; auto.
  apply IH, in_or_app. now left.
Qed.

Lemma not_keepRule formats ct :
  ~ keepRule formats ct ->
  exists f, In f formats /\ contentType f = ct /\
            includes (url f) "noimages" = false.
Proof.
  intros N.
  destruct (negb (List.existsb
                    (fun f => String.eqb (contentType f) ct) formats)
            || List.existsb
                 (fun f => String.eqb (contentType f) ct
                           && includes (url f) "noimages") formats) eqn:B.
  - exfalso. now apply N, keepRule_iff.
  - apply orb_false_iff in B as [B1 B2]. apply negb_false_iff in B1.
    apply existsb_exists in B1 as [f [I E]]. apply String.eqb_eq in E.
    exists f. repeat split; try assumption.
    destruct (includes (url f) "noimages") eqn:X; [|reflexivity].
    assert (Y : List.existsb
                  (fun f => String.eqb (contentType f) ct
                            && includes (url f) "noimages") formats = true).
    { apply existsb_exists. exists f. split; [assumption|].
      now rewrite (proj2 (String.eqb_eq _ _) E), X. }
    congruence.
Qed.

Lemma collected_from_files files acc out :
  collected files acc out ->
  forall f, In f out ->
    In f acc \/
    exists file, In file files /\
                 contentTypeValue file = Some (contentType f) /\
                 url f = getAttribute file "rdf:about".
Proof.
  induction 1 as [acc|file files acc out ct E K _ IH|file files acc out N _ IH];
    intros f I; auto.
  - destruct (IH f I) as [J|(file' & J & H)].
    + apply in_app_or in J as [J|[<-|[]]]; [now left|].
      right. exists file. simpl. auto.
    + right. exists file'. simpl. auto.
  - destruct (IH f I) as [J|(file' & J & H)]; [now left|].
    right. exists file'. simpl. auto.
Qed.

Lemma collected_covers files acc out :
  collected files acc out ->
  forall file ct, In file files -> contentTypeValue file = Some ct ->
    exists f, In f out /\ contentType f = ct.
Proof.
  induction 1 as [acc|file files acc out ct E K C IH|file files acc out N C IH];
    intros file' ct' I E'.
  - destruct I.
  - destruct I as [<-|I]; [|eauto].
    exists (mkFormat ct (getAttribute file "rdf:about")). split.
    + apply (collected_grows _ _ _ C), in_or_app. right. now left.
    + simpl. congruence.
  - destruct I as [<-|I]; [|eauto].
    destruct (not_keepRule _ _ (N ct' E')) as (f & J & H & _).
    exists f. split; [|assumption]. now apply (collected_grows _ _ _ C).
Qed.

(** X11.  In a returned record, every entry of [formats] comes from a file
    element of the work: its content type is the content-type value of the
    file and its url the [rdf:about] attribute of the file.  And no content
    type is lost: for every file element with a content-type value,
    [formats] has an entry of that content type. *)
Theorem formats_from_files id root r :
  getBook id (Some root) = Ok r ->
  exists book,
    ebook root = Some book /\
    (forall f, In f (formats r) ->
       exists file, In file (fileElements book) /\
                    contentTypeValue file = Some (contentType f) /\
                    url f = getAttribute file "rdf:about") /\
    (forall file ct, In file (fileElements book) ->
       contentTypeValue file = Some ct ->
       exists f, In f (formats r) /\ contentType f = ct).
Proof.
  intros H.
  apply getBook_Ok_inv in H
    as (book & rights & fmts & typeEl & langs & Hb & _ & Hf & _ & _ & ->).
  apply forEach_addFormat_collected in Hf.
  exists book. simpl. repeat split; try assumption.
  - intros f I.
    destruct (collected_from_files _ _ _ Hf f I) as [[]|X]. exact X.
  - apply (collected_covers _ _ _ Hf).
Qed.

Lemma formats_from_files_witness :
  exists r,
    getBook "7" (Some fiveFiles) = Ok r /\
    formats r =
      [mkFormat "text/plain" "https://example.org/7.txt";
       mkFormat "text/html" "https://example.org/7.html.noimages";
       mkFormat "text/html" "https://example.org/7.html.images"] /\
    exists book,
      ebook fiveFiles = Some book /\
      (forall f, In f (formats r) ->
         exists file, In file (fileElements book) /\
                      contentTypeValue file = Some (contentType f) /\
                      url f = getAttribute file "rdf:about") /\
      (forall file ct, In file (fileElements book) ->
         contentTypeValue file = Some ct ->
         exists f, In f (formats r) /\ contentType f = ct).
Proof.
  eexists. split; [reflexivity|]. split; [reflexivity|].
  apply (formats_from_files "7" fiveFiles). reflexivity.
Defined.

Lemma collected_unique files acc out :
  collected files acc out ->
  (forall file, In file files ->
     includes (getAttribute file "rdf:about") "noimages" = false) ->
  (forall f, In f acc -> includes (url f) "noimages" = false) ->
  NoDup (map contentType acc) -> NoDup (map contentType out).
Proof.
  induction 1 as [acc|file files acc out ct E K _ IH|file files acc out N _ IH];
    intros Hfiles Hacc D; auto.
  - apply IH.
    + intros f I. apply Hfiles. now right.
    + intros f I. apply in_app_or in I as [I|[<-|[]]]; [now apply Hacc|].
      simpl. apply Hfiles. now left.
    + rewrite map_app. simpl.
      destruct K as [K|(f & I & _ & X)].
      * apply NoDup_app; [assumption | repeat constructor; intros [] |].
        intros c I [<-|[]]. apply in_map_iff in I as (f & <- & I).
        now apply (K f).
      * apply includes_iff in X. rewrite (Hacc f I) in X. discriminate.
  - apply IH; auto. intros f I. apply Hfiles. now right.
Qed.

(** X12.  When no file element of the work has an [rdf:about] attribute
    containing ["noimages"], no two entries of [formats] have the same
    content type. *)
Theorem formats_unique_without_noimages id root r :
  getBook id (Some root) = Ok r ->
  exists book,
    ebook root = Some book /\
    ((forall file, In file (fileElements book) ->
        includes (getAttribute file "rdf:about") "noimages" = false) ->
     NoDup (map contentType (formats r))).
Proof.
  intros H.
  apply getBook_Ok_inv in H
    as (book & rights & fmts & typeEl & langs & Hb & _ & Hf & _ & _ & ->).
  apply forEach_addFormat_collected in Hf.
  exists book. simpl. split; [assumption|]. intros Hfiles.
  apply (collected_unique _ _ _ Hf Hfiles); [intros f [] | constructor].
Qed.

Lemma formats_unique_without_noimages_witness :
  exists r,
    getBook "11"
      (Some (record [rightsEl "Copyrighted.";
                     fileEl "https://example.org/11.txt" "text/plain";
                     fileEl "https://example.org/11-0.txt" "text/plain";
                     fileEl "https://example.org/11.epub" "application/epub";
                     typeEl "Text"])) = Ok r /\
    formats r =
      [mkFormat "text/plain" "https://example.org/11.txt";
       mkFormat "application/epub" "https://example.org/11.epub"] /\
    exists book,
      ebook
        (record [rightsEl "Copyrighted.";
                 fileEl "https://example.org/11.txt" "text/plain";
                 fileEl "https://example.org/11-0.txt" "text/plain";
                 fileEl "https://example.org/11.epub" "application/epub";
                 typeEl "Text"]) = Some book /\
      ((forall file, In file (fileElements book) ->
          includes (getAttribute file "rdf:about") "noimages" = false) ->
       NoDup (map contentType (formats r))).
Proof.
  eexists. split; [reflexivity|]. split; [reflexivity|].
  apply (formats_unique_without_noimages "11"). reflexivity.
Defined.

(** *** The first file of a content type decides *)

Lemma collected_app l1 : forall l2 acc out,
  collected (l1 ++ l2)%list acc out ->
  exists mid, collected l1 acc mid /\ collected l2 mid out.
Proof.
  induction l1 as [|file l1 IH]; intros l2 acc out H; simpl in H.
  - exists acc. split; [constructor | assumption].
  - inversion H as [|? ? ? ? ct E K C|? ? ? ? N C]; subst.
    + apply IH in C as (mid & C1 & C2). exists mid. split; [|assumption].
      eapply collected_keep; eauto.
    + apply IH in C as (mid & C1 & C2). exists mid. split; [|assumption].
      now apply collected_skip.
Qed.

Lemma hasContentType_true ct file :
  hasContentType ct file = true <-> contentTypeValue file = Some ct.
Proof.
  unfold hasContentType. destruct (contentTypeValue file) as [c|].
  - rewrite String.eqb_eq. split; congruence.
  - split; discriminate.
Qed.

Lemma filter_ofType_snoc ct acc c about :
  filter (ofType ct) (acc ++ [mkFormat c about])%list =
  (filter (ofType ct) acc ++ if String.eqb c ct then [mkFormat c about]
                             else [])%list.
Proof. now rewrite filter_app. Qed.

(** Files of other content types add no entry of the content type. *)
Lemma collected_none_of_type ct files acc out :
  collected files acc out ->
  (forall file, In file files -> hasContentType ct file = false) ->
  filter (ofType ct) out = filter (ofType ct) acc.
Proof.
  induction 1 as [acc|file files acc out c E K _ IH|file files acc out N _ IH];
    intros Hfiles; auto.
  - rewrite IH by (intros f I; apply Hfiles; now right).
    rewrite filter_ofType_snoc.
    assert (X : hasContentType ct file = false) by (apply Hfiles; now left).
    unfold hasContentType in X. rewrite E in X. rewrite X.
    apply app_nil_r.
  - apply IH. intros f I. apply Hfiles. now right.
Qed.

(** Once an entry of the content type is a ["noimages"] variant, every
    later file of the content type is kept. *)
Lemma collected_all_after_noimages ct files acc out :
  collected files acc out ->
  (exists f, In f acc /\ contentType f = ct /\
             exists a b, url f = a ++ "noimages" ++ b) ->
  filter (ofType ct) out =
  (filter (ofType ct) acc
   ++ map (entryOf ct) (filter (hasContentType ct) files))%list.
Proof.
  induction 1 as [acc|file files acc out c E K _ IH|file files acc out N _ IH];
    intros (f & I & Hf).
  - simpl. now rewrite app_nil_r.
  - rewrite IH by (exists f; split; [apply in_or_app; now left | exact Hf]).
    rewrite filter_ofType_snoc. cbn [filter].
    unfold hasContentType at 2. rewrite E.
    destruct (String.eqb c ct) eqn:X.
    + apply String.eqb_eq in X. subst c. rewrite <- app_assoc. reflexivity.
    + now rewrite app_nil_r.
  - rewrite IH by eauto. cbn [filter].
    destruct (hasContentType ct file) eqn:X; [|reflexivity].
    exfalso. apply hasContentType_true in X.
    apply (N ct X). right. eauto.
Qed.

(** While the one entry of the content type is no ["noimages"] variant, no
    later file of the content type is kept. *)
Lemma collected_single ct e files acc out :
  collected files acc out ->
  filter (ofType ct) acc = [e] ->
  includes (url e) "noimages" = false ->
  filter (ofType ct) out = [e].
Proof.
  induction 1 as [acc|file files acc out c E K _ IH|file files acc out N _ IH];
    intros Ha He; auto.
  apply IH; [|assumption]. rewrite filter_ofType_snoc.
  destruct (String.eqb c ct) eqn:X; [|now rewrite app_nil_r].
  exfalso. apply String.eqb_eq in X. subst c.
  assert (Ie : forall f, In f acc -> contentType f = ct -> f = e).
  { intros f I Hf.
    assert (J : In f (filter (ofType ct) acc)).
    { apply filter_In. split; [assumption|].
      unfold ofType. now apply String.eqb_eq. }
    rewrite Ha in J. destruct J as [J|[]]. now symmetry. }
  assert (Je : In e acc /\ contentType e = ct).
  { assert (J : In e (filter (ofType ct) acc)) by (rewrite Ha; now left).
    apply filter_In in J as [J T]. split; [assumption|].
    now apply String.eqb_eq in T. }
  destruct K as [K|(f & I & Hf & Y)].
  - now apply (K e).
  - rewrite (Ie f I Hf) in Y. apply includes_iff in Y. congruence.
Qed.

(** The first file of a content type is kept, and decides about the
    others. *)
Lemma collected_first_decides ct pre f0 post out :
  collected (pre ++ f0 :: post)%list [] out ->
  (forall file, In file pre -> hasContentType ct file = false) ->
  contentTypeValue f0 = Some ct ->
  filter (ofType ct) out =
  if includes (getAttribute f0 "rdf:about") "noimages"
  then map (entryOf ct) (f0 :: filter (hasContentType ct) post)
  else [entryOf ct f0].
Proof.
  intros C Hpre E0.
  apply collected_app in C as (mid & C1 & C2).
  pose proof (collected_none_of_type ct _ _ _ C1 Hpre) as M. simpl in M.
  assert (K0 : keepRule mid ct).
  { left. intros f I Hf.
    assert (J : In f (filter (ofType ct) mid)).
    { apply filter_In. split; [assumption|].
      unfold ofType. now apply String.eqb_eq. }
    rewrite M in J. destruct J. }
  inversion C2 as [|? ? ? ? c E K C|? ? ? ? N C]; subst;
    [|exfalso; exact (N ct E0 K0)].
  assert (c = ct) by congruence. subst c.
  assert (F : filter (ofType ct)
                (mid ++ [mkFormat ct (getAttribute f0 "rdf:about")])%list
              = [entryOf ct f0]).
  { rewrite filter_ofType_snoc, M, String.eqb_refl. reflexivity. }
  destruct (includes (getAttribute f0 "rdf:about") "noimages") eqn:X.
  - rewrite (collected_all_after_noimages ct _ _ _ C), F; [reflexivity|].
    exists (mkFormat ct (getAttribute f0 "rdf:about")).
    split; [apply in_or_app; right; now left|]. split; [reflexivity|].
    now apply includes_iff.
  - now apply (collected_single ct (entryOf ct f0) _ _ _ C).
Qed.

(** X13.  In a returned record, the entries of [formats] of one content
    type are decided by the first file element of that content type: it is
    kept; when its url contains ["noimages"], every later file of the content
    type is kept after it, in document order; when it does not, no later file
    of the content type is kept. *)
Theorem formats_first_file_decides id root r :
  getBook id (Some root) = Ok r ->
  exists book,
    ebook root = Some book /\
    forall ct pre f0 post,
      fileElements book = (pre ++ f0 :: post)%list ->
      (forall file, In file pre -> hasContentType ct file = false) ->
      contentTypeValue f0 = Some ct ->
      filter (ofType ct) (formats r) =
      if includes (getAttribute f0 "rdf:about") "noimages"
      then map (entryOf ct) (f0 :: filter (hasContentType ct) post)
      else [entryOf ct f0].
Proof.
  intros H.
  apply getBook_Ok_inv in H
    as (book & rights & fmts & typeEl & langs & Hb & _ & Hf & _ & _ & ->).
  apply forEach_addFormat_collected in Hf.
  exists book. simpl. split; [assumption|].
  intros ct pre f0 post E Hpre E0. rewrite E in Hf.
  now apply (collected_first_decides ct pre f0 post).
Qed.

Lemma formats_first_file_decides_witness :
  exists r,
    getBook "7" (Some fiveFiles) = Ok r /\
    filter (ofType "text/plain") (formats r) =
      [mkFormat "text/plain" "https://example.org/7.txt"] /\
    filter (ofType "text/html") (formats r) =
      [mkFormat "text/html" "https://example.org/7.html.noimages";
       mkFormat "text/html" "https://example.org/7.html.images"] /\
    exists book,
      ebook fiveFiles = Some book /\
      forall ct pre f0 post,
        fileElements book = (pre ++ f0 :: post)%list ->
        (forall file, In file pre -> hasContentType ct file = false) ->
        contentTypeValue f0 = Some ct ->
        filter (ofType ct) (formats r) =
        if includes (getAttribute f0 "rdf:about") "noimages"
        then map (entryOf ct) (f0 :: filter (hasContentType ct) post)
        else [entryOf ct f0].
Proof.
  eexists. split; [reflexivity|]. split; [reflexivity|].
  split; [reflexivity|].
  apply (formats_first_file_decides "7" fiveFiles). reflexivity.
Defined.

(** ** Directory names and identifiers *)

Lemma digit_cases c :
  is_digit c = true ->
  In c ["0"; "1"; "2"; "3"; "4"; "5"; "6"; "7"; "8"; "9"]%char.
Proof.
  destruct c as [[] [] [] [] [] [] [] []]; intros H;
    try discriminate H; simpl; tauto.
Qed.

Lemma digit_not_whitespace c : is_digit c = true -> is_whitespace c = false.
Proof.
  intros H. apply digit_cases in H. simpl in H.
  repeat (destruct H as [<-|H]; [reflexivity|]). destruct H.
Qed.

Lemma uint_digits u :
  List.forallb is_digit (list_ascii_of_string (NilEmpty.string_of_uint u))
  = true.
Proof. induction u; simpl; auto. Qed.

Ltac eval_digit :=
  match goal with
  | |- context [digit_value ?c] =>
      let v := eval vm_compute in (digit_value c) in
      change (digit_value c) with v; cbv iota
  end.

Lemma digits_uint u : forall acc,
  digits (Some (Z.of_nat acc)) (NilEmpty.string_of_uint u) =
  Some (Z.of_nat (Nat.of_uint_acc u acc)).
Proof.
  induction u; intros acc; cbn [NilEmpty.string_of_uint Nat.of_uint_acc];
    [reflexivity|..];
    cbn [digits]; eval_digit; rewrite <- IHu; do 2 f_equal;
    rewrite Nat.tail_mul_spec; lia.
Qed.

Lemma to_uint_not_Nil n : Nat.to_uint n <> Decimal.Nil.
Proof.
  intros H. pose proof (DecimalNat.Unsigned.of_to n) as E.
  rewrite H in E. cbn in E. subst n. discriminate H.
Qed.

(** [parseInt] reads a numeral back. *)
Lemma parseInt_uint u :
  u <> Decimal.Nil ->
  parseInt (NilEmpty.string_of_uint u) = Num (Z.of_nat (Nat.of_uint u)).
Proof.
  intros N.
  assert (E : parseInt (NilEmpty.string_of_uint u) =
              match digits (Some (Z.of_nat 0)) (NilEmpty.string_of_uint u)
              with
              | Some n => Num (1 * n)
              | None => NaN
              end)
    by (destruct u; [congruence|..]; reflexivity).
  rewrite E, digits_uint. unfold Nat.of_uint. f_equal. lia.
Qed.

Ltac eval_digit_class :=
  match goal with
  | |- context [is_digit ?c] =>
      let v := eval vm_compute in (is_digit c) in
      change (is_digit c) with v; cbv iota
  end.

Lemma dropWhile_all {A} (p : A -> bool) l :
  List.forallb p l = true -> dropWhile p l = [].
Proof.
  induction l as [|a l IH]; simpl; [reflexivity|].
  intros H. apply andb_true_iff in H as [-> H]. auto.
Qed.

Lemma dropWhile_snoc {A} (p : A -> bool) c x :
  p c = false -> exists m, dropWhile p (x ++ [c])%list = (m ++ [c])%list.
Proof.
  intros H. induction x as [|a x [m IH]]; simpl.
  - rewrite H. now exists [].
  - destruct (p a); [eauto|]. now exists (a :: x).
Qed.

(** Trimming keeps a first character that is no white space. *)
Lemma trim_head c l :
  is_whitespace c = false -> exists m, trim (c :: l) = c :: m.
Proof.
  intros H. unfold trim. cbn [dropWhile]. rewrite H. cbn [rev].
  destruct (dropWhile_snoc is_whitespace c (rev l) H) as [m ->].
  exists (rev m). now rewrite rev_app_distr.
Qed.

Lemma trim_digits l :
  l <> [] -> List.forallb is_digit l = true -> trim l = l.
Proof.
  intros N H. unfold trim.
  assert (E : dropWhile is_whitespace l = l).
  { destruct l as [|c l]; [congruence|]. simpl in *.
    apply andb_true_iff in H as [H _]. now rewrite digit_not_whitespace. }
  rewrite E.
  assert (R : dropWhile is_whitespace (rev l) = rev l).
  { destruct (rev l) as [|d m] eqn:X; [reflexivity|].
    assert (D : is_digit d = true).
    { rewrite forallb_forall in H. apply H, in_rev. rewrite X. now left. }
    simpl. now rewrite digit_not_whitespace. }
  rewrite R. apply rev_involutive.
Qed.

(** A name made of decimal digits converts to a number. *)
Lemma isNaN_digits s :
  list_ascii_of_string s <> [] ->
  List.forallb is_digit (list_ascii_of_string s) = true ->
  isNaN_Number s = false.
Proof.
  intros N H. unfold isNaN_Number. rewrite (trim_digits _ N H).
  destruct (list_ascii_of_string s) as [|c l]; [congruence|].
  cbn [List.forallb] in H. apply andb_true_iff in H as [Hc Hl].
  assert (U : unsignedDecimal (dropSign (c :: l)) = true).
  { apply digit_cases in Hc. simpl in Hc.
    repeat (destruct Hc as [<-|Hc];
            [unfold unsignedDecimal; cbn [dropSign string_of_list_ascii
               String.eqb Ascii.eqb Bool.eqb andb dropWhile];
             eval_digit_class; rewrite (dropWhile_all _ _ Hl);
             reflexivity|]).
    destruct Hc. }
  now rewrite U.
Qed.

Lemma decimal_chars n :
  list_ascii_of_string (decimal n) <> [] /\
  List.forallb is_digit (list_ascii_of_string (decimal n)) = true.
Proof.
  unfold decimal. split; [|apply uint_digits].
  pose proof (to_uint_not_Nil n) as N.
  destruct (Nat.to_uint n); [congruence|..]; discriminate.
Qed.

(** X14.  A subdirectory named by the decimal numeral of [n], for [n] up
    to [2^53], passes the numeric test of the loop, and the record parsed
    for it has the identifier [n]. *)
Theorem numeric_directory_name (n : nat) :
  (Z.of_nat n <= 2 ^ 53)%Z ->
  isNaN_Number (decimal n) = false /\
  parseInt (decimal n) = Num (Z.of_nat n) /\
  (forall root r,
     getBook (decimal n) (Some root) = Ok r -> id r = Num (Z.of_nat n)).
Proof.
  intros _.
  assert (P : parseInt (decimal n) = Num (Z.of_nat n)).
  { unfold decimal. rewrite parseInt_uint by apply to_uint_not_Nil.
    now rewrite DecimalNat.Unsigned.of_to. }
  split; [apply isNaN_digits; apply decimal_chars|].
  split; [exact P|].
  intros root r H.
  apply getBook_Ok_inv in H
    as (book & rights & fmts & typeEl & langs & _ & _ & _ & _ & _ & ->).
  exact P.
Qed.

Lemma numeric_directory_name_witness :
  decimal 620 = "620" /\
  isNaN_Number (decimal 620) = false /\
  parseInt (decimal 620) = Num 620 /\
  (forall root r,
     getBook (decimal 620) (Some root) = Ok r -> id r = Num 620).
Proof.
  split; [reflexivity|].
  apply (numeric_directory_name 620). vm_compute. discriminate.
Defined.

(** X15.  A subdirectory whose name starts with a letter other than [I] is
    skipped by the loop: its file is not parsed, whatever it holds, and the
    run goes on with the next subdirectory. *)
Theorem letter_named_directory_skipped c name xml rest store :
  is_letter c = true -> c <> "I"%char ->
  isNaN_Number (String c name) = true /\
  Updater.upsertAll ((String c name, xml) :: rest) store =
  Updater.upsertAll rest store.
Proof.
  intros L N.
  assert (X : isNaN_Number (String c name) = true).
  { unfold isNaN_Number. cbn [list_ascii_of_string].
    assert (W : is_whitespace c = false).
    { destruct c as [[] [] [] [] [] [] [] []]; try discriminate L;
        reflexivity. }
    destruct (trim_head c (list_ascii_of_string name) W) as [m ->].
    unfold unsignedDecimal.
    destruct c as [[] [] [] [] [] [] [] []]; try discriminate L;
      try (exfalso; apply N; reflexivity);
      cbn [dropSign string_of_list_ascii String.eqb Ascii.eqb Bool.eqb
             andb dropWhile nonDecimal];
      eval_digit_class; rewrite Nat.eqb_refl; reflexivity. }
  split; [exact X|]. cbn [Updater.upsertAll]. now rewrite X.
Qed.

Lemma letter_named_directory_skipped_witness :
  isNaN_Number "README" = true /\
  Updater.upsertAll [("README", None); ("11", Some wonderland)] [] =
  Updater.upsertAll [("11", Some wonderland)] [].
Proof.
  apply (letter_named_directory_skipped "R" "EADME" None
           [("11", Some wonderland)] []).
  - reflexivity.
  - discriminate.
Defined.

(** ** The loop over several subdirectories *)

(** X16.  A run over the subdirectories [t1] followed by [t2] is the run
    over [t1] when that one fails, and otherwise the run over [t2] from the
    store the run over [t1] left. *)
Theorem upsertAll_app t1 t2 store :
  Updater.upsertAll (t1 ++ t2)%list store =
  match snd (Updater.upsertAll t1 store) with
  | Some e => Updater.upsertAll t1 store
  | None => Updater.upsertAll t2 (fst (Updater.upsertAll t1 store))
  end.
Proof.
  revert store. induction t1 as [|[name xml] t1 IH]; intros store;
    [reflexivity|].
  cbn [app Updater.upsertAll].
  destruct (negb (isNaN_Number name)); [|apply IH].
  destruct (Updater.upsertRecord name xml store) as [store'|e];
    [apply IH | reflexivity].
Qed.

Lemma upsertAll_app_aux t1 t2 store :
  snd (Updater.upsertAll t1 store) = None ->
  Updater.upsertAll (t1 ++ t2)%list store =
  Updater.upsertAll t2 (fst (Updater.upsertAll t1 store)).
Proof.
  revert store. induction t1 as [|[name xml] t1 IH]; intros store H;
    [reflexivity|].
  cbn [app Updater.upsertAll] in *.
  destruct (negb (isNaN_Number name)); [|now apply IH].
  destruct (Updater.upsertRecord name xml store) as [store'|e];
    [now apply IH | discriminate].
Qed.

(** X17.  When the record of a numeric subdirectory cannot be parsed, the
    run ends with the exception of the parser: the store is as the
    subdirectories before it left it, and no subdirectory after it is
    processed. *)
Theorem run_stops_at_first_failure pre name xml rest store e :
  snd (Updater.upsertAll pre store) = None ->
  isNaN_Number name = false ->
  getBook name xml = Throw e ->
  Updater.upsertAll (pre ++ (name, xml) :: rest)%list store =
  (fst (Updater.upsertAll pre store), Some e).
Proof.
  intros P N G. rewrite (upsertAll_app_aux _ _ _ P).
  cbn [Updater.upsertAll]. rewrite N. cbn [negb].
  unfold Updater.upsertRecord. rewrite G. reflexivity.
Qed.

Lemma run_stops_at_first_failure_witness :
  Updater.upsertAll Updater.brokenTree [] =
  (fst (Updater.upsertAll [("11", Some wonderland)] []),
   Some (TypeError "Cannot read properties of undefined")) /\
  Updater.ids (fst (Updater.upsertAll Updater.brokenTree [])) = [11%Z].
Proof.
  split; [|reflexivity].
  apply (run_stops_at_first_failure [("11", Some wonderland)] "12"
           (Some withoutType) [("13", Some twoHtmlFiles)] []);
    reflexivity.
Defined.

(** ** Entries of [subjects] that are no strings *)

(** X18.  In a returned record, [subjects] has an [undefined] entry exactly
    when some subject element of the LCSH scheme has no value element: when
    every LCSH subject has a value, all entries are strings. *)
Theorem undefined_subject_iff id root r :
  getBook id (Some root) = Ok r ->
  exists book,
    ebook root = Some book /\
    (In None (subjects r) <->
     exists s, In s (subjectElements book) /\
               scheme s = Some "dc:LCSH" /\ valueElement s = None).
Proof.
  intros H. apply getBook_subjects in H as (book & Hb & ->).
  exists book. split; [assumption|].
  assert (P : Permutation (sort (keptSubjects book)) (keptSubjects book))
    by apply sort_perm.
  split.
  - intros I. apply (Permutation_in _ P), in_keptSubjects in I
      as (s & Hs & L & V).
    exists s. repeat split; try assumption.
    unfold subjectValue in V. now destruct (valueElement s).
  - intros (s & Hs & L & V).
    apply (Permutation_in _ (Permutation_sym P)), in_keptSubjects.
    exists s. repeat split; try assumption.
    unfold subjectValue. now rewrite V.
Qed.

Lemma undefined_subject_iff_witness :
  exists r,
    getBook "11" (Some threeSubjects) = Ok r /\
    ~ In None (subjects r) /\
    exists book,
      ebook threeSubjects = Some book /\
      (In None (subjects r) <->
       exists s, In s (subjectElements book) /\
                 scheme s = Some "dc:LCSH" /\ valueElement s = None).
Proof.
  eexists. split; [reflexivity|]. split.
  - simpl. intros [H|[H|[]]]; discriminate.
  - apply (undefined_subject_iff "11" threeSubjects). reflexivity.
Defined.
